(* ========================================================================== *)
(*  lambda-api-handler: a shallow embedding of the authentication core         *)
(*  (validation utility, rate limiter, JWT utility, database helpers and the   *)
(*  authentication service) with proofs of its specified properties.           *)
(* ========================================================================== *)

From Stdlib Require Import String Ascii List ZArith Lia Bool.
From stdpp Require Import base gmap strings.
Import ListNotations.
Open Scope Z_scope.

(* -------------------------------------------------------------------------- *)
(** * Character and string helpers (JavaScript string primitives)              *)
(* -------------------------------------------------------------------------- *)

Module Js.

(** JavaScript strings are handled as lists of ASCII characters; a character
    outside ASCII is never a digit, so it is treated like any other
    non-digit by the code below. *)
Definition chars (s : string) : list ascii := list_ascii_of_string s.

Definition code (c : ascii) : Z := Z.of_nat (nat_of_ascii c).

(** [\d] in a JavaScript regular expression: the ASCII digits 0-9. *)
Definition is_digit (c : ascii) : bool := (48 <=? code c) && (code c <=? 57).

(** The value of a digit character. *)
Definition digit_value (c : ascii) : Z := code c - 48.

(** [s.replace(/\D/g, '')]: keep the digit characters only. *)
Definition strip_non_digits (s : list ascii) : list ascii := List.filter is_digit s.

(** [s.endsWith(x)] for a one-character [x]. *)
Definition ends_with (s : list ascii) (x : ascii) : bool :=
  match rev s with
  | c :: _ => Ascii.eqb c x
  | [] => false
  end.

(** JavaScript whitespace in the ASCII range, as skipped by [parseInt]. *)
Definition is_js_space (c : ascii) : bool :=
  let n := code c in (n =? 32) || ((9 <=? n) && (n <=? 13)).

Fixpoint skip_spaces (s : list ascii) : list ascii :=
  match s with
  | c :: r => if is_js_space c then skip_spaces r else s
  | [] => []
  end.

Definition hex_value (c : ascii) : option Z :=
  let n := code c in
  if (48 <=? n) && (n <=? 57) then Some (n - 48)
  else if (97 <=? n) && (n <=? 102) then Some (n - 87)
  else if (65 <=? n) && (n <=? 70) then Some (n - 55)
  else None.

Definition digit_in_radix (radix : Z) (c : ascii) : option Z :=
  match hex_value c with
  | Some v => if v <? radix then Some v else None
  | None => None
  end.

(** The longest prefix of digits in [radix], read as a number; [None] when
    the prefix is empty. *)
Fixpoint read_digits (radix acc : Z) (seen : bool) (s : list ascii) : option Z :=
  match s with
  | c :: r =>
      match digit_in_radix radix c with
      | Some v => read_digits radix (acc * radix + v) true r
      | None => if seen then Some acc else None
      end
  | [] => if seen then Some acc else None
  end.

(** [parseInt(s)] with no radix: skip leading whitespace, an optional sign,
    a [0x]/[0X] prefix selects radix 16, then the longest digit prefix.
    [None] stands for [NaN]. *)
Definition parseInt (s : string) : option Z :=
  let t := skip_spaces (chars s) in
  let '(sign, t) :=
    match t with
    | "-"%char :: r => (-1, r)
    | "+"%char :: r => (1, r)
    | _ => (1, t)
    end in
  let v :=
    match t with
    | "0"%char :: x :: r =>
        if Ascii.eqb x "x"%char || Ascii.eqb x "X"%char
        then read_digits 16 0 false r
        else read_digits 10 0 false t
    | _ => read_digits 10 0 false t
    end in
  option_map (fun n => sign * n) v.

End Js.

(* -------------------------------------------------------------------------- *)
(** * Validation utility: [validateCpf] and [normalizeCpf]                     *)
(* -------------------------------------------------------------------------- *)

Module Validation.
Import Js.

(** [parseInt(cleanCpf[i])]: [cleanCpf] holds digits only, so each character
    read by the loops is a digit. Reading past the end gives [NaN], which
    never happens for an 11-character string. *)
Definition digit_at (clean : list ascii) (i : nat) : option Z :=
  option_map digit_value (nth_error clean i).

(** [/^(\d)\1{10}$/.test(cleanCpf)] *)
Definition repeated_digits (clean : list ascii) : bool :=
  match clean with
  | c :: rest => is_digit c && (Nat.eqb (List.length rest) 10)
                 && forallb (Ascii.eqb c) rest
  | [] => false
  end.

(** [for (let i = 0; i < n; i++) sum += parseInt(cleanCpf[i]) * (w - i)] *)
Definition weighted_sum (clean : list ascii) (n : nat) (w : Z) : Z :=
  fold_left (fun sum i =>
               sum + match digit_at clean i with
                     | Some d => d * (w - Z.of_nat i)
                     | None => 0
                     end)
            (seq 0 n) 0.

(** [remainder = (sum * 10) % 11; if (remainder === 10 || remainder === 11)
    remainder = 0] *)
Definition check_digit (sum : Z) : Z :=
  let remainder := (sum * 10) mod 11 in
  if (remainder =? 10) || (remainder =? 11) then 0 else remainder.

Definition digit_matches (r : Z) (d : option Z) : bool :=
  match d with Some v => r =? v | None => false end.

Definition validateCpf (cpf : string) : bool :=
  let cleanCpf := strip_non_digits (chars cpf) in
  if negb (Nat.eqb (List.length cleanCpf) 11) then false
  else if repeated_digits cleanCpf then false
  else if negb (digit_matches (check_digit (weighted_sum cleanCpf 9 10))
                              (digit_at cleanCpf 9)) then false
  else if negb (digit_matches (check_digit (weighted_sum cleanCpf 10 11))
                              (digit_at cleanCpf 10)) then false
  else true.

Definition normalizeCpf (cpf : string) : string :=
  string_of_list_ascii (strip_non_digits (chars cpf)).

(** The CPF rule as the specification words it, over the digit values: keep
    the digits, require eleven of them, reject a single repeated digit, and
    compare the two modulo-11 check digits, computed with weights descending
    from 10 and from 11, to the tenth and eleventh digits. *)
Definition spec_digits (cpf : string) : list Z :=
  map digit_value (strip_non_digits (chars cpf)).

Definition dot (ws ds : list Z) : Z :=
  fold_right Z.add 0 (map (fun '(w, d) => w * d) (combine ws ds)).

Definition spec_check (ws ds : list Z) : Z :=
  let r := (dot ws ds * 10) mod 11 in if (r =? 10) || (r =? 11) then 0 else r.

Definition validateCpf_spec (cpf : string) : bool :=
  match spec_digits cpf with
  | [d1; d2; d3; d4; d5; d6; d7; d8; d9; d10; d11] as ds =>
      negb (forallb (Z.eqb d1) ds)
      && (spec_check [10; 9; 8; 7; 6; 5; 4; 3; 2] ds =? d10)
      && (spec_check [11; 10; 9; 8; 7; 6; 5; 4; 3; 2] ds =? d11)
  | _ => false
  end.

End Validation.

(* -------------------------------------------------------------------------- *)
(** * Rate limiter ([src/utils/rate-limiter.ts])                               *)
(* -------------------------------------------------------------------------- *)

Module RateLimiter.

Record RateLimitEntry := { count : Z; resetTime : Z }.

(** The module-level [rateLimitStore], a [Map<string, RateLimitEntry>]. The
    entry object read by [get] is mutated and stored back under the same key,
    so the store after a call is the old store with that key overwritten. *)
Abbreviation store := (gmap string RateLimitEntry).

Definition RATE_LIMIT_WINDOW_MS : Z := 15 * 60 * 1000.
Definition MAX_REQUESTS_PER_WINDOW : Z := 5.
Definition BLOCK_DURATION_MS : Z := 30 * 60 * 1000.

(** [isRateLimited(identifier)] at time [now] ([Date.now()]): the result is
    [true] when the request is rate limited, with the updated store. *)
Definition isRateLimited (st : store) (now : Z) (identifier : string)
  : bool * store :=
  match st !! identifier with
  | None =>
      (false, <[identifier := {| count := 1;
                                 resetTime := now + RATE_LIMIT_WINDOW_MS |}]> st)
  | Some entry =>
      if now >? resetTime entry then
        (false, <[identifier := {| count := 1;
                                   resetTime := now + RATE_LIMIT_WINDOW_MS |}]> st)
      else
        let entry := {| count := count entry + 1; resetTime := resetTime entry |} in
        if count entry >? MAX_REQUESTS_PER_WINDOW then
          let entry := {| count := count entry;
                          resetTime := now + BLOCK_DURATION_MS |} in
          (true, <[identifier := entry]> st)
        else (false, <[identifier := entry]> st)
  end.

(** A run of calls for one identifier at the given times: the list of
    results ([true] = limited) and the final store. *)
Fixpoint run (st : store) (identifier : string) (times : list Z)
  : list bool * store :=
  match times with
  | [] => ([], st)
  | t :: ts =>
      let '(r, st') := isRateLimited st t identifier in
      let '(rs, st'') := run st' identifier ts in
      (r :: rs, st'')
  end.

End RateLimiter.

(* -------------------------------------------------------------------------- *)
(** * JWT utility ([src/utils/jwt.ts]) over the [jsonwebtoken] library         *)
(* -------------------------------------------------------------------------- *)

Module Jwt.
Import Js.
Local Open Scope string_scope.
Local Open Scope Z_scope.

(** ** The [ms] package, used by [jsonwebtoken] to read [expiresIn] strings *)

(** Unit words accepted by [ms] (matched case-insensitively), with their
    length in milliseconds. *)
Definition ms_units : list (string * Z) :=
  [("milliseconds", 1); ("millisecond", 1); ("msecs", 1); ("msec", 1);
   ("ms", 1); ("", 1);
   ("seconds", 1000); ("second", 1000); ("secs", 1000); ("sec", 1000);
   ("s", 1000);
   ("minutes", 60000); ("minute", 60000); ("mins", 60000); ("min", 60000);
   ("m", 60000);
   ("hours", 3600000); ("hour", 3600000); ("hrs", 3600000); ("hr", 3600000);
   ("h", 3600000);
   ("days", 86400000); ("day", 86400000); ("d", 86400000);
   ("weeks", 604800000); ("week", 604800000); ("w", 604800000);
   ("years", 31557600000); ("year", 31557600000); ("yrs", 31557600000);
   ("yr", 31557600000); ("y", 31557600000)].

Definition lower (c : ascii) : ascii :=
  if (65 <=? code c) && (code c <=? 90)
  then ascii_of_nat (Z.to_nat (code c + 32)) else c.

Definition unit_ms (u : list ascii) : option Z :=
  let u := string_of_list_ascii (map lower u) in
  match find (fun p => String.eqb (fst p) u) ms_units with
  | Some (_, v) => Some v
  | None => None
  end.

Fixpoint span_digits (s : list ascii) : list ascii * list ascii :=
  match s with
  | c :: r => if is_digit c then let '(d, t) := span_digits r in (c :: d, t)
              else ([], s)
  | [] => ([], [])
  end.

Fixpoint skip_blanks (s : list ascii) : list ascii :=
  match s with
  | " "%char :: r => skip_blanks r
  | _ => s
  end.

Definition digits_value (d : list ascii) : Z :=
  fold_left (fun acc c => acc * 10 + digit_value c) d 0.

(** [ms(str)]: [str] must match
    [/^(-?(?:\d+)?\.?\d+) *(milliseconds?|...|y)?$/i] and be at most 100
    characters long. The amount is [num / 10^k] milliseconds, returned as the
    pair [(num, k)]. [None] stands for [undefined].
    The library computes [parseFloat(amount) * unit] in binary64, while this
    model computes the exact product: the two agree when the amount is a
    whole number ([k = 0]) and [|num| <= 2^53], and they can differ for a
    fractional amount or a very long lifetime (["1000000000000y"]). The
    theorems that use the value of [ms] stay in the range where they agree. *)
Definition ms (str : string) : option (Z * nat) :=
  if (100 <? Z.of_nat (String.length str)) || (String.length str =? 0)%nat
  then None else
  let s := chars str in
  let '(sign, s) := match s with
                    | "-"%char :: r => (-1, r)
                    | _ => (1, s)
                    end in
  let '(d1, r1) := span_digits s in
  let number :=
    match r1 with
    | "."%char :: r2 =>
        let '(d2, r3) := span_digits r2 in
        match d2 with [] => None | _ => Some (app d1 d2, List.length d2, r3) end
    | _ => match d1 with [] => None | _ => Some (d1, 0%nat, r1) end
    end in
  match number with
  | None => None
  | Some (ds, k, rest) =>
      match unit_ms (skip_blanks rest) with
      | Some u => Some (sign * digits_value ds * u, k)
      | None => None
      end
  end.

(** [timespan(expiresIn, iat)] of [jsonwebtoken]:
    [Math.floor(iat + ms(expiresIn) / 1000)], [undefined] when [ms] fails.
    The model computes the floor exactly. With a whole [num] and
    [0 <= iat + num / 1000 < 2^43], the library's two roundings (of
    [num / 1000] and of the sum) move the value by less than the distance
    [1/1000] to the next integer, so [Math.floor] gives the same result; this
    holds for [0 <= now <= 8.64e15] (every [Date.now()] from 1970 on) and
    [0 <= num <= 10^14]. *)
Definition timespan (expiresIn : string) (iat : Z) : option Z :=
  match ms expiresIn with
  | Some (num, k) => Some (iat + num / (10 ^ Z.of_nat k * 1000))
  | None => None
  end.

(** ** Tokens *)

(** The JSON payload of a token, with the fields this code writes. *)
Record Payload := {
  sub : string;
  email : option string;
  name : option string;
  role : option string;
  clientId : option string;
  employeeId : option string;
  type_ : option string;
  iat : Z;
  exp : option Z
}.

#[global] Instance Payload_eq_dec : EqDecision Payload.
Proof. solve_decision. Defined.

(** A token string: either the encoding of a payload signed (HS256) with a
    key, or a string that does not decode as a signed JWT. The encoding is
    deterministic and injective, so two token strings are equal iff they
    carry the same payload signed with the same key. *)
Inductive Token :=
  | Signed (p : Payload) (key : string)
  | Malformed (s : string).

#[global] Instance Token_eq_dec : EqDecision Token.
Proof. solve_decision. Defined.

(** [jwt.sign(payload, secret, { expiresIn })] at time [now] (milliseconds):
    [iat] is [Math.floor(now / 1000)] and [exp] is [timespan(expiresIn, iat)];
    [None] when [sign] throws: an empty secret, or an [expiresIn] that is not
    a timespan. *)
Definition sign (p : Payload) (secret expiresIn : string) (now : Z)
  : option Token :=
  let t := now / 1000 in
  if String.eqb secret "" then None else
  match timespan expiresIn t with
  | Some e => Some (Signed {| sub := sub p; email := email p; name := name p;
                              role := role p; clientId := clientId p;
                              employeeId := employeeId p; type_ := type_ p;
                              iat := t; exp := Some e |} secret)
  | None => None
  end.

Inductive VerifyError := TokenExpiredError | JsonWebTokenError.

(** [jwt.verify(token, secret)] at time [now]: the signature is checked
    first, then [exp] against [Math.floor(now / 1000)]. *)
Definition verify (token : Token) (secret : string) (now : Z)
  : VerifyError + Payload :=
  match token with
  | Malformed _ => inl JsonWebTokenError
  | Signed p key =>
      if String.eqb secret "" || negb (String.eqb key secret)
      then inl JsonWebTokenError
      else match exp p with
           | Some e => if now / 1000 >=? e then inl TokenExpiredError else inr p
           | None => inr p
           end
  end.

End Jwt.

(* -------------------------------------------------------------------------- *)
(** * Types ([src/types]) and the token functions of [src/utils/jwt.ts]        *)
(* -------------------------------------------------------------------------- *)

Module Types.

Record UserInfo := {
  id : string;
  u_email : string;
  u_name : string;
  u_role : string;
  u_clientId : option string;
  u_employeeId : option string
}.

(** [AuthSecrets], parsed from the secret store's JSON; a missing field is
    [None]. *)
Record AuthSecrets := {
  JWT_SECRET : string;
  JWT_ACCESS_EXPIRY : option string;
  JWT_REFRESH_EXPIRY : option string
}.

(** The [code] of an [AuthError]. *)
Inductive AuthCode :=
  | INVALID_CREDENTIALS | CPF_NOT_FOUND | USER_NOT_FOUND
  | INVALID_REFRESH_TOKEN | TOKEN_EXPIRED | INVALID_TOKEN | TOKEN_ERROR
  | INVALID_TOKEN_TYPE | REFRESH_TOKEN_EXPIRED.

#[global] Instance AuthCode_eq_dec : EqDecision AuthCode.
Proof. solve_decision. Defined.

(** What a call can throw: an [AuthError], the [Error] thrown by [jwt.sign]
    for an [expiresIn] that is not a timespan, or a failed database query. *)
Inductive Error :=
  | AuthError (code : AuthCode)
  | SignError
  | QueryError.

(** [a || b] on an optional string: [undefined] and [""] are falsy. *)
Definition or_default (o : option string) (d : string) : string :=
  match o with
  | Some s => if String.eqb s "" then d else s
  | None => d
  end.

(** [...(x && { field: x })]: the field is present only when [x] is truthy. *)
Definition truthy (o : option string) : option string :=
  match o with
  | Some s => if String.eqb s "" then None else Some s
  | None => None
  end.

End Types.

Module JwtUtil.
Import Js Jwt Types.
Local Open Scope string_scope.
Local Open Scope Z_scope.

Definition DAY_MS : Z := 24 * 60 * 60 * 1000.
Definition HOUR_MS : Z := 60 * 60 * 1000.

(** [generateAccessToken(user)] at time [now]. *)
Definition generateAccessToken (secrets : AuthSecrets) (now : Z) (user : UserInfo)
  : Error + Token :=
  let payload := {| sub := id user; email := Some (u_email user);
                    name := Some (u_name user); role := Some (u_role user);
                    clientId := truthy (u_clientId user);
                    employeeId := truthy (u_employeeId user);
                    type_ := None; iat := 0; exp := None |} in
  match sign payload (JWT_SECRET secrets)
             (or_default (JWT_ACCESS_EXPIRY secrets) "15m") now with
  | Some t => inr t
  | None => inl SignError
  end.

(** [generateRefreshToken(userId)] at time [now]: the signed token and the
    separately computed [expiresAt] in milliseconds ([None] is an
    [Invalid Date], from [parseInt] giving [NaN]). [Date] arithmetic is in
    UTC, where [setDate(getDate() + n)] adds [n] days of 24 hours. The code's
    [Date] becomes an [Invalid Date] when the result leaves the range of
    [8.64e15] ms (as for ["100000000d"]); the model does not produce that
    case, and the theorems on [expiresAt] assume the result within the range,
    where the floating-point [Date] arithmetic is exact. *)
Definition generateRefreshToken (secrets : AuthSecrets) (now : Z) (userId : string)
  : Error + (Token * option Z) :=
  let payload := {| sub := userId; email := None; name := None; role := None;
                    clientId := None; employeeId := None;
                    type_ := Some "refresh"; iat := 0; exp := None |} in
  match sign payload (JWT_SECRET secrets)
             (or_default (JWT_REFRESH_EXPIRY secrets) "7d") now with
  | None => inl SignError
  | Some token =>
      let expiresIn := or_default (JWT_REFRESH_EXPIRY secrets) "7d" in
      let expiresAt :=
        if ends_with (chars expiresIn) "d"%char then
          option_map (fun n => now + n * DAY_MS) (parseInt expiresIn)
        else if ends_with (chars expiresIn) "h"%char then
          option_map (fun n => now + n * HOUR_MS) (parseInt expiresIn)
        else Some (now + 7 * DAY_MS) in
      inr (token, expiresAt)
  end.

(** [verifyAccessToken(token)] at time [now]. *)
Definition verifyAccessToken (secrets : AuthSecrets) (now : Z) (token : Token)
  : Error + Payload :=
  match verify token (JWT_SECRET secrets) now with
  | inr decoded => inr decoded
  | inl TokenExpiredError => inl (AuthError TOKEN_EXPIRED)
  | inl JsonWebTokenError => inl (AuthError INVALID_TOKEN)
  end.

(** [verifyRefreshToken(token)] at time [now]: the [AuthError] thrown inside
    the [try] for a wrong [type] is rethrown as it is. *)
Definition verifyRefreshToken (secrets : AuthSecrets) (now : Z) (token : Token)
  : Error + string :=
  match verify token (JWT_SECRET secrets) now with
  | inr decoded =>
      match type_ decoded with
      | Some "refresh" => inr (sub decoded)
      | _ => inl (AuthError INVALID_TOKEN_TYPE)
      end
  | inl TokenExpiredError => inl (AuthError REFRESH_TOKEN_EXPIRED)
  | inl JsonWebTokenError => inl (AuthError INVALID_REFRESH_TOKEN)
  end.

(** [getAccessTokenExpiry()], in seconds; [None] is [NaN]. The code
    multiplies floating-point numbers; the exact products here agree with
    them up to [2^53] (for ["9007199254740993m"] they do not). *)
Definition getAccessTokenExpiry (secrets : AuthSecrets) : option Z :=
  let expiry := or_default (JWT_ACCESS_EXPIRY secrets) "15m" in
  if ends_with (chars expiry) "m"%char then
    option_map (fun n => n * 60) (parseInt expiry)
  else if ends_with (chars expiry) "h"%char then
    option_map (fun n => n * 60 * 60) (parseInt expiry)
  else if ends_with (chars expiry) "d"%char then
    option_map (fun n => n * 60 * 60 * 24) (parseInt expiry)
  else Some 900.

End JwtUtil.

(* -------------------------------------------------------------------------- *)
(** * Database helpers ([src/utils/database.ts])                               *)
(* -------------------------------------------------------------------------- *)

Module Database.
Import Jwt.
Local Open Scope string_scope.
Local Open Scope Z_scope.

Record DbUser := {
  du_id : string;
  du_email : string;
  du_password_hash : string;
  du_name : string;
  du_role : string;
  du_isActive : bool;
  du_clientId : option string;
  du_employeeId : option string
}.

Record DbEmployee := { de_id : string; de_isActive : bool }.

(** A row of [refresh_tokens]; [expiresAt] in milliseconds. *)
Record DbRefreshToken := {
  rt_token : Token;
  rt_userId : string;
  rt_expiresAt : Z
}.

(** The tables the queries read and write. *)
Record Db := {
  users : list DbUser;
  clients : list string;
  employees : list DbEmployee;
  refresh_tokens : list DbRefreshToken
}.

(** [SELECT * FROM "users" WHERE email = $1 AND "isActive" = true LIMIT 1] *)
Definition findUserByEmail (d : Db) (email : string) : option DbUser :=
  find (fun u => String.eqb (du_email u) email && du_isActive u) (users d).

(** [SELECT * FROM "users" WHERE id = $1 AND "isActive" = true LIMIT 1] *)
Definition findUserById (d : Db) (uid : string) : option DbUser :=
  find (fun u => String.eqb (du_id u) uid && du_isActive u) (users d).

(** [SELECT c.* FROM "clients" c INNER JOIN "users" u ON u."clientId" = c.id
    WHERE u.id = $1 LIMIT 1]; a client is represented by its id. *)
Definition findClientByUserId (d : Db) (userId : string) : option string :=
  match find (fun u => String.eqb (du_id u) userId) (users d) with
  | Some u =>
      match du_clientId u with
      | Some c => find (String.eqb c) (clients d)
      | None => None
      end
  | None => None
  end.

(** [SELECT e.* FROM "employees" e INNER JOIN "users" u ON u."employeeId" =
    e.id WHERE u.id = $1 AND e."isActive" = true LIMIT 1] *)
Definition findEmployeeByUserId (d : Db) (userId : string) : option DbEmployee :=
  match find (fun u => String.eqb (du_id u) userId) (users d) with
  | Some u =>
      match du_employeeId u with
      | Some e => find (fun x => String.eqb (de_id x) e && de_isActive x)
                       (employees d)
      | None => None
      end
  | None => None
  end.

Definition with_refresh_tokens (d : Db) (rts : list DbRefreshToken) : Db :=
  {| users := users d; clients := clients d; employees := employees d;
     refresh_tokens := rts |}.

(** [INSERT INTO "refresh_tokens" ...]: the row is added; an [Invalid Date]
    for [expiresAt] makes the query fail and nothing is inserted. *)
Definition saveRefreshToken (d : Db) (userId : string) (token : Token)
  (expiresAt : option Z) : option Db :=
  match expiresAt with
  | Some e => Some (with_refresh_tokens d
                      (refresh_tokens d ++ [{| rt_token := token;
                                               rt_userId := userId;
                                               rt_expiresAt := e |}]))
  | None => None
  end.

(** [SELECT * FROM "refresh_tokens" WHERE token = $1 AND "expiresAt" > NOW()
    LIMIT 1], with [NOW()] the request's time [now]. *)
Definition findValidRefreshToken (d : Db) (token : Token) (now : Z)
  : option DbRefreshToken :=
  find (fun r => bool_decide (rt_token r = token) && (now <? rt_expiresAt r))
       (refresh_tokens d).

(** [DELETE FROM "refresh_tokens" WHERE token = $1] *)
Definition revokeRefreshToken (d : Db) (token : Token) : Db :=
  with_refresh_tokens d
    (List.filter (fun r => negb (bool_decide (rt_token r = token)))
                 (refresh_tokens d)).

End Database.

(* -------------------------------------------------------------------------- *)
(** * Authentication service ([src/services/auth.service.ts])                  *)
(* -------------------------------------------------------------------------- *)

Module AuthService.
Import Js Jwt Types JwtUtil Database.
Local Open Scope string_scope.
Local Open Scope Z_scope.

(** Work done by [bcrypt.compare]: hashing the candidate password with the
    salt taken from the stored hash. *)
Inductive Event := BcryptHash (password salt : string).

(** The state a request acts on: the database, and the trace of hashing work
    done so far. *)
Record St := { db : Db; trace : list Event }.

(** An async function that may throw, acting on the state: a thrown error
    leaves the state as it was when the error was thrown (the queries already
    run are not rolled back). *)
Definition M (A : Type) : Type := St -> (Error + A) * St.

Definition ret {A} (a : A) : M A := fun s => (inr a, s).
Definition throw {A} (e : Error) : M A := fun s => (inl e, s).
Definition bind {A B} (m : M A) (k : A -> M B) : M B :=
  fun s => match m s with
           | (inr a, s') => k a s'
           | (inl e, s') => (inl e, s')
           end.
Definition lift {A} (r : Error + A) : M A :=
  fun s => (r, s).
Definition query {A} (q : Db -> A) : M A := fun s => (inr (q (db s)), s).
Definition update (f : Db -> Db) : M unit :=
  fun s => (inr tt, {| db := f (db s); trace := trace s |}).
Definition record (ev : Event) : M unit :=
  fun s => (inr tt, {| db := db s; trace := trace s ++ [ev] |}).

Notation "x <-- m ;; k" := (bind m (fun x => k))
  (at level 100, m at next level, right associativity).

Definition save (userId : string) (token : Token) (expiresAt : option Z) : M unit :=
  fun s => match saveRefreshToken (db s) userId token expiresAt with
           | Some d => (inr tt, {| db := d; trace := trace s |})
           | None => (inl QueryError, s)
           end.

Record AuthResponse := {
  accessToken : Token;
  refreshToken : Token;
  expiresIn : option Z;
  user : UserInfo
}.

(** [refreshAccessToken(refreshTokenStr)] at time [now]. *)
Definition refreshAccessToken (secrets : AuthSecrets) (now : Z)
  (refreshTokenStr : Token) : M AuthResponse :=
  userId <-- lift (verifyRefreshToken secrets now refreshTokenStr) ;;
  tokenRecord <-- query (fun d => findValidRefreshToken d refreshTokenStr now) ;;
  match tokenRecord with
  | None => throw (AuthError INVALID_REFRESH_TOKEN)
  | Some _ =>
      u <-- query (fun d => findUserById d userId) ;;
      match u with
      | None => throw (AuthError USER_NOT_FOUND)
      | Some u =>
          client <-- query (fun d => findClientByUserId d (du_id u)) ;;
          employee <-- query (fun d => findEmployeeByUserId d (du_id u)) ;;
          _ <-- update (fun d => revokeRefreshToken d refreshTokenStr) ;;
          let userInfo := {| id := du_id u; u_email := du_email u;
                             u_name := du_name u; u_role := du_role u;
                             u_clientId := client;
                             u_employeeId := option_map de_id employee |} in
          accessToken <-- lift (generateAccessToken secrets now userInfo) ;;
          pair <-- lift (generateRefreshToken secrets now (du_id u)) ;;
          _ <-- save (du_id u) (fst pair) (snd pair) ;;
          ret {| accessToken := accessToken; refreshToken := fst pair;
                 expiresIn := getAccessTokenExpiry secrets; user := userInfo |}
      end
  end.

(** [logout(refreshTokenStr)] *)
Definition logout (refreshTokenStr : Token) : M unit :=
  update (fun d => revokeRefreshToken d refreshTokenStr).

(** The dummy hash passed to [bcrypt.compare] when no user has the email. *)
Definition DUMMY_HASH : string :=
  "$2a$10$dummyhashfortimingatttackprevention00000000000000000".

Section Login.

(** The bcrypt hash of a password under a salt (the first 29 characters of a
    stored hash: version, cost and salt). *)
Variable bcrypt_hash : string -> string -> string.

(** [bcrypt.compare(password, hash)] of [bcryptjs]: a hash whose length is not
    60 is answered [false] at once, without hashing; otherwise the password
    is hashed with the stored salt and compared. *)
Definition compare (password hash : string) : M bool :=
  if Nat.eqb (String.length hash) 60 then
    let salt := substring 0 29 hash in
    _ <-- record (BcryptHash password salt) ;;
    ret (String.eqb (bcrypt_hash password salt) hash)
  else ret false.

(** [loginWithEmail(email, password)] at time [now]. *)
Definition loginWithEmail (secrets : AuthSecrets) (now : Z)
  (email password : string) : M AuthResponse :=
  u <-- query (fun d => findUserByEmail d email) ;;
  match u with
  | None =>
      _ <-- compare password DUMMY_HASH ;;
      throw (AuthError INVALID_CREDENTIALS)
  | Some u =>
      isValidPassword <-- compare password (du_password_hash u) ;;
      if negb isValidPassword then throw (AuthError INVALID_CREDENTIALS) else
      client <-- query (fun d => findClientByUserId d (du_id u)) ;;
      employee <-- query (fun d => findEmployeeByUserId d (du_id u)) ;;
      let userInfo := {| id := du_id u; u_email := du_email u;
                         u_name := du_name u; u_role := du_role u;
                         u_clientId := client;
                         u_employeeId := option_map de_id employee |} in
      accessToken <-- lift (generateAccessToken secrets now userInfo) ;;
      pair <-- lift (generateRefreshToken secrets now (du_id u)) ;;
      _ <-- save (du_id u) (fst pair) (snd pair) ;;
      ret {| accessToken := accessToken; refreshToken := fst pair;
             expiresIn := getAccessTokenExpiry secrets; user := userInfo |}
  end.

End Login.

End AuthService.

(* -------------------------------------------------------------------------- *)
(** * Concrete configurations and database contents used by the examples       *)
(* -------------------------------------------------------------------------- *)

Module Fixtures.
Import Jwt Types JwtUtil Database AuthService.
Local Open Scope string_scope.
Local Open Scope Z_scope.

(** The defaults: access tokens for 15 minutes, refresh tokens for 7 days. *)
Definition secrets0 : AuthSecrets :=
  {| JWT_SECRET := "s3cr3t"; JWT_ACCESS_EXPIRY := None;
     JWT_REFRESH_EXPIRY := None |}.

Definition alice : DbUser :=
  {| du_id := "u-alice"; du_email := "alice@example.com";
     du_password_hash :=
       "$2a$10$N9qo8uLOickgx2ZMRZoMyeIjZAgcfl7p92ldGxad68LJZdL17lhWy";
     du_name := "Alice"; du_role := "CLIENT"; du_isActive := true;
     du_clientId := Some "c-alice"; du_employeeId := None |}.

Definition db0 : Db :=
  {| users := [alice]; clients := ["c-alice"]; employees := [];
     refresh_tokens := [] |}.

(** 2023-11-14T22:13:20.000Z *)
Definition login_time : Z := 1700000000000.

(** The refresh token issued to Alice at [login_time] under [secrets0]. *)
Definition T0 : Token :=
  Signed {| sub := "u-alice"; email := None; name := None; role := None;
            clientId := None; employeeId := None; type_ := Some "refresh";
            iat := 1700000000; exp := Some (1700000000 + 7 * 24 * 3600) |}
         "s3cr3t".

(** The database right after Alice's login at [login_time]. *)
Definition st0 : St :=
  {| db := {| users := [alice]; clients := ["c-alice"]; employees := [];
              refresh_tokens := [{| rt_token := T0; rt_userId := "u-alice";
                                    rt_expiresAt := login_time + 7 * DAY_MS |}] |};
     trace := [] |}.

End Fixtures.

(* -------------------------------------------------------------------------- *)
(** * The other functions of the rate limiter ([src/utils/rate-limiter.ts])    *)
(* -------------------------------------------------------------------------- *)

Module RateLimiterOps.
Import RateLimiter.

(** [getRemainingRequests(identifier)] at time [now]. *)
Definition getRemainingRequests (st : store) (now : Z) (identifier : string) : Z :=
  match st !! identifier with
  | None => MAX_REQUESTS_PER_WINDOW
  | Some entry =>
      if now >? resetTime entry then MAX_REQUESTS_PER_WINDOW
      else Z.max 0 (MAX_REQUESTS_PER_WINDOW - count entry)
  end.

(** [getResetTime(identifier)]; [None] is [null] (an entry is an object, so
    it is always truthy). *)
Definition getResetTime (st : store) (identifier : string) : option Z :=
  match st !! identifier with
  | Some entry => Some (resetTime entry)
  | None => None
  end.

(** [clearRateLimit(identifier)] *)
Definition clearRateLimit (st : store) (identifier : string) : store :=
  delete identifier st.

(** [cleanupExpiredEntries()] at time [now]: the loop visits every entry of
    the store and deletes the expired ones. Deleting the visited key while
    iterating a [Map] does not disturb the iteration, so the loop acts on the
    entries as they were when it started. *)
Definition cleanupExpiredEntries (st : store) (now : Z) : store :=
  foldr (fun '(key, entry) acc =>
           if now >? resetTime entry then delete key acc else acc)
        st (map_to_list st).

(** The rate-limit check opening [emailLoginHandler] and [cpfLoginHandler]
    of the handler with rate limiting: [None] when the request may go on,
    [Some retryAfter] when a [RateLimitError] is thrown, with
    [retryAfter = resetTime ? resetTime - Date.now() : undefined]. The clock
    is read twice: [now] is the [Date.now()] of [isRateLimited], [now'] the
    later [Date.now()] of the handler. *)
Definition rateLimitCheck (st : store) (now now' : Z) (clientId : string)
  : option (option Z) * store :=
  let '(limited, st') := isRateLimited st now clientId in
  if limited then
    let retryAfter :=
      match getResetTime st' clientId with
      | Some r => if r =? 0 then None else Some (r - now')
      | None => None
      end in
    (Some retryAfter, st')
  else (None, st').

(** The [Retry-After] header set by [handleError] for a [RateLimitError]:
    [Math.ceil(retryAfter / 1000)], present only when [retryAfter] is
    truthy. *)
Definition retryAfterHeader (retryAfter : option Z) : option Z :=
  match retryAfter with
  | Some r => if r =? 0 then None else Some (- ((- r) / 1000))
  | None => None
  end.

End RateLimiterOps.

(* -------------------------------------------------------------------------- *)
(** * Request validation ([src/utils/validation.ts])                           *)
(* -------------------------------------------------------------------------- *)

Module Requests.
Import Js Validation.
Local Open Scope string_scope.
Local Open Scope Z_scope.

(** [s.split(c)] for a one-character separator: [""] splits into [[""]]. *)
Fixpoint split_on (sep : ascii) (s : list ascii) : list (list ascii) :=
  match s with
  | [] => [[]]
  | c :: r =>
      if Ascii.eqb c sep then [] :: split_on sep r
      else match split_on sep r with
           | w :: ws => (c :: w) :: ws
           | [] => [[c]]
           end
  end.

(** The string contains no [sep]. *)
Definition no_sep (sep : ascii) (s : list ascii) : bool :=
  forallb (fun c => negb (Ascii.eqb c sep)) s.

Definition is_upper (c : ascii) : bool := (65 <=? code c) && (code c <=? 90).
Definition is_lower (c : ascii) : bool := (97 <=? code c) && (code c <=? 122).
Definition is_alnum (c : ascii) : bool := is_digit c || is_upper c || is_lower c.

(** [s.toLowerCase()] on ASCII. *)
Definition to_lower (s : list ascii) : list ascii := map Jwt.lower s.

(** [s.trim()]: whitespace removed at both ends. *)
Definition trim (s : list ascii) : list ascii := rev (skip_spaces (rev (skip_spaces s))).

(** ** [validateEmail] *)

(** The local-part class [[a-zA-Z0-9.!#$%&'*+/=?^_`{|}~-]]. *)
Definition local_char (c : ascii) : bool :=
  is_alnum c || existsb (Ascii.eqb c) (chars ".!#$%&'*+/=?^_`{|}~-").

(** A label [[a-zA-Z0-9](?:[a-zA-Z0-9-]{0,61}[a-zA-Z0-9])?]: 1 to 63
    characters, letters, digits and hyphens, beginning and ending with a
    letter or digit. *)
Definition label_ok (l : list ascii) : bool :=
  match l with
  | [] => false
  | c :: _ =>
      is_alnum c
      && match rev l with d :: _ => is_alnum d | [] => false end
      && forallb (fun x => is_alnum x || Ascii.eqb x "-"%char) l
      && Nat.leb (List.length l) 63
  end.

(** The email regular expression. Neither character class contains ["@"],
    and a label contains no ["."]; so a string matches exactly when it is
    one non-empty local part of the class, one ["@"], and a domain whose
    ["."]-separated pieces are all labels. *)
Definition email_regex (s : list ascii) : bool :=
  match split_on "@"%char s with
  | [loc; domain] =>
      negb (Nat.eqb (List.length loc) 0) && forallb local_char loc
      && forallb label_ok (split_on "."%char domain)
  | _ => false
  end.

(** [validateEmail(email)] *)
Definition validateEmail (email : string) : bool :=
  if String.eqb email "" || Nat.ltb 254 (String.length email) then false
  else email_regex (chars email).

(** ** [validatePasswordStrength] *)

(** The special-character class of the source: the characters
    [!@#$%^&*()_+-=[]{};':\|,.<>/?] and the double quote (character 34). *)
Definition special_char (c : ascii) : bool :=
  existsb (Ascii.eqb c) (app (chars "!@#$%^&*()_+-=[]{};':\|,.<>/?") [ascii_of_nat 34]).

Definition validatePasswordStrength (password : string) : bool * list string :=
  let p := chars password in
  let push (b : bool) (msg : string) (errors : list string) :=
        if b then app errors [msg] else errors in
  let errors :=
    push (negb (existsb special_char p))
      "Password must contain at least one special character"
    (push (negb (existsb is_digit p)) "Password must contain at least one number"
    (push (negb (existsb is_lower p))
       "Password must contain at least one lowercase letter"
    (push (negb (existsb is_upper p))
       "Password must contain at least one uppercase letter"
    (push (Nat.ltb (String.length password) 8)
       "Password must be at least 8 characters" [])))) in
  (Nat.eqb (List.length errors) 0, errors).

(** ** Request bodies *)

(** A parsed JSON body. Only the kind of a non-string value matters to the
    validators; numbers are kept as integers. *)
#[warnings="-register-all"]
Inductive JValue :=
  | JNull
  | JBool (b : bool)
  | JNum (n : Z)
  | JStr (s : string)
  | JArr (l : list JValue)
  | JObj (fields : list (string * JValue)).

(** [!body || typeof body !== 'object'] is false: an object or an array. *)
Definition is_object (v : JValue) : bool :=
  match v with JArr _ | JObj _ => true | _ => false end.

(** [(body as Record<string, unknown>)[k]]: [JSON.parse] keeps the last of
    duplicated keys; an array has none of the fields read here. *)
Definition get_field (v : JValue) (k : string) : option JValue :=
  match v with
  | JObj fs => match find (fun p => String.eqb (fst p) k) (rev fs) with
               | Some (_, x) => Some x
               | None => None
               end
  | _ => None
  end.

(** The field when [!x || typeof x !== 'string'] is false: a non-empty
    string. *)
Definition string_field (v : JValue) (k : string) : option string :=
  match get_field v k with
  | Some (JStr s) => if String.eqb s "" then None else Some s
  | _ => None
  end.

(** A thrown [ValidationError] is [inl message]. *)
Definition validateEmailLoginRequest (body : JValue) : string + (string * string) :=
  if negb (is_object body) then inl "Invalid request body" else
  match string_field body "email" with
  | None => inl "Email is required"
  | Some email =>
      if negb (validateEmail email) then inl "Invalid email format" else
      match string_field body "password" with
      | None => inl "Password is required"
      | Some password =>
          if Nat.ltb (String.length password) 6
          then inl "Password must be at least 6 characters"
          else inr (string_of_list_ascii (trim (to_lower (chars email))), password)
      end
  end.

Definition validateCpfLoginRequest (body : JValue) : string + string :=
  if negb (is_object body) then inl "Invalid request body" else
  match string_field body "cpf" with
  | None => inl "CPF is required"
  | Some cpf =>
      if negb (validateCpf cpf) then inl "Invalid CPF" else inr (normalizeCpf cpf)
  end.

(** The class [[A-Za-z0-9-_]]. *)
Definition token_char (c : ascii) : bool :=
  is_alnum c || Ascii.eqb c "-"%char || Ascii.eqb c "_"%char.

(** [/^[A-Za-z0-9-_]+\.[A-Za-z0-9-_]+\.[A-Za-z0-9-_]+$/]: the class has no
    ["."], so the string matches exactly when its ["."]-separated pieces are
    three non-empty runs of the class. *)
Definition jwt_pattern (s : list ascii) : bool :=
  match split_on "."%char s with
  | [a; b; c] =>
      forallb (fun w => negb (Nat.eqb (List.length w) 0) && forallb token_char w)
              [a; b; c]
  | _ => false
  end.

Definition validateRefreshTokenRequest (body : JValue) : string + string :=
  if negb (is_object body) then inl "Invalid request body" else
  match string_field body "refreshToken" with
  | None => inl "Refresh token is required"
  | Some refreshToken =>
      if negb (jwt_pattern (chars refreshToken)) then inl "Invalid token format"
      else if Nat.ltb (String.length refreshToken) 50
              || Nat.ltb 1000 (String.length refreshToken)
      then inl "Invalid token length"
      else inr refreshToken
  end.

End Requests.

(* -------------------------------------------------------------------------- *)
(** * More database helpers and [loginWithCpf]                                 *)
(* -------------------------------------------------------------------------- *)

Module DatabaseOps.
Import Validation Jwt Database.
Local Open Scope string_scope.

(** [SELECT u.* FROM "users" u WHERE u."clientId" = $1 AND u."isActive" =
    true LIMIT 1] *)
Definition findUserByClientId (d : Db) (clientId : string) : option DbUser :=
  find (fun u => match du_clientId u with
                 | Some c => String.eqb c clientId
                 | None => false
                 end && du_isActive u) (users d).

(** [DELETE FROM "refresh_tokens" WHERE "userId" = $1] *)
Definition revokeAllUserTokens (d : Db) (userId : string) : Db :=
  with_refresh_tokens d
    (List.filter (fun r => negb (String.eqb (rt_userId r) userId))
                 (refresh_tokens d)).

Section Clients.

(** The [cpfCnpj] column of the client with a given id. *)
Variable cpfCnpj : string -> string.

(** [findClientByCpf(cpf)]: [SELECT * FROM "clients" WHERE "cpfCnpj" = $1
    LIMIT 1] with the digits of [cpf]; a client is its id. *)
Definition findClientByCpf (d : Db) (cpf : string) : option string :=
  let normalizedCpf := string_of_list_ascii (Js.strip_non_digits (Js.chars cpf)) in
  find (fun c => String.eqb (cpfCnpj c) normalizedCpf) (clients d).

End Clients.

End DatabaseOps.

Module CpfLogin.
Import Jwt Types JwtUtil Database DatabaseOps AuthService.
Local Open Scope string_scope.
Local Open Scope Z_scope.

Section Cpf.

Variable cpfCnpj : string -> string.

(** [loginWithCpf(cpf)] at time [now]. *)
Definition loginWithCpf (secrets : AuthSecrets) (now : Z) (cpf : string)
  : M AuthResponse :=
  client <-- query (fun d => findClientByCpf cpfCnpj d cpf) ;;
  match client with
  | None => throw (AuthError CPF_NOT_FOUND)
  | Some c =>
      u <-- query (fun d => findUserByClientId d c) ;;
      match u with
      | None => throw (AuthError USER_NOT_FOUND)
      | Some u =>
          employee <-- query (fun d => findEmployeeByUserId d (du_id u)) ;;
          let userInfo := {| id := du_id u; u_email := du_email u;
                             u_name := du_name u; u_role := du_role u;
                             u_clientId := Some c;
                             u_employeeId := option_map de_id employee |} in
          accessToken <-- lift (generateAccessToken secrets now userInfo) ;;
          pair <-- lift (generateRefreshToken secrets now (du_id u)) ;;
          _ <-- save (du_id u) (fst pair) (snd pair) ;;
          ret {| accessToken := accessToken; refreshToken := fst pair;
                 expiresIn := getAccessTokenExpiry secrets; user := userInfo |}
      end
  end.

End Cpf.

End CpfLogin.

(* -------------------------------------------------------------------------- *)
(** * The API Gateway authorizer handler                                      *)
(* -------------------------------------------------------------------------- *)

Module Authorizer.
Import Js Jwt Types JwtUtil Requests.
Local Open Scope string_scope.

(** [extractToken(authorizationHeader)]: ["Bearer <token>"] (any case of
    [Bearer]) or a raw token without spaces. *)
Definition extractToken (authorizationHeader : option string) : option string :=
  match authorizationHeader with
  | None => None
  | Some h =>
      if String.eqb h "" then None else
      match split_on " "%char (chars h) with
      | [p0; p1] =>
          if String.eqb (string_of_list_ascii (to_lower p0)) "bearer"
          then Some (string_of_list_ascii p1) else None
      | [p0] => Some (string_of_list_ascii p0)
      | _ => None
      end
  end.

Fixpoint join_on (sep : ascii) (ws : list (list ascii)) : list ascii :=
  match ws with
  | [] => []
  | [w] => w
  | w :: r => app w (sep :: join_on sep r)
  end.

(** [methodArn.replace(/\/[^/]+\/[^/]+$/, '/*')]: a match is a ["/"], a
    non-empty segment, a ["/"] and a non-empty last segment, so it exists
    exactly when the last two ["/"]-separated pieces are non-empty and
    preceded by a third; those two pieces are replaced by ["*"]. *)
Definition wildcard_resource (methodArn : string) : string :=
  match rev (split_on "/"%char (chars methodArn)) with
  | b :: a :: ((_ :: _) as rest) =>
      if negb (Nat.eqb (List.length a) 0) && negb (Nat.eqb (List.length b) 0)
      then string_of_list_ascii (app (join_on "/"%char (rev rest)) ["/"; "*"]%char)
      else methodArn
  | _ => methodArn
  end.

Record AuthorizerEvent := {
  ev_type : string;
  authorizationToken : option string;
  ev_headers : option (list (string * string));
  methodArn : string
}.

(** [event.headers?.[k]] *)
Definition header (hs : option (list (string * string))) (k : string) : option string :=
  match hs with
  | Some l => match find (fun p => String.eqb (fst p) k) l with
              | Some (_, v) => Some v
              | None => None
              end
  | None => None
  end.

(** [a || b] on optional strings. *)
Definition js_or (a b : option string) : option string :=
  match a with
  | Some s => if String.eqb s "" then b else a
  | None => b
  end.

Inductive Effect := Allow | Deny.

(** The user claims handed on: the context of an [Allow] policy (with [sub]
    under the key [userId]) and the [user] returned by
    [validateTokenHandler]. Absent fields are [None]. *)
Record UserClaims := {
  c_sub : string;
  c_email : option string;
  c_name : option string;
  c_role : option string;
  c_clientId : option string;
  c_employeeId : option string
}.

Record Policy := {
  principalId : string;
  effect : Effect;
  resource : string;
  context : option UserClaims
}.

(** [generatePolicy(principalId, effect, resource, context)] *)
Definition generatePolicy (principalId : string) (effect : Effect)
  (resource : string) (context : option UserClaims) : Policy :=
  {| principalId := principalId; effect := effect; resource := resource;
     context := context |}.

Definition claims_of (decoded : Payload) : UserClaims :=
  {| c_sub := sub decoded; c_email := email decoded; c_name := name decoded;
     c_role := role decoded; c_clientId := truthy (clientId decoded);
     c_employeeId := truthy (employeeId decoded) |}.

Record ValidateResult := {
  valid : bool;
  v_user : option UserClaims;
  v_error : option string
}.

(** The message of an error thrown by [verifyAccessToken]. *)
Definition verify_message (e : Error) : string :=
  match e with
  | AuthError TOKEN_EXPIRED => "Token expired"
  | AuthError INVALID_TOKEN => "Invalid token"
  | _ => "Token verification failed"
  end.

Section Handlers.

(** The token a string denotes, as decoded by [jwt.verify]. *)
Variable decode : string -> Token.

(** The token read from the event at the start of [authorizerHandler]. *)
Definition eventToken (event : AuthorizerEvent) : option string :=
  if String.eqb (ev_type event) "TOKEN"
  then extractToken (authorizationToken event)
  else if String.eqb (ev_type event) "REQUEST"
  then extractToken (js_or (header (ev_headers event) "Authorization")
                           (header (ev_headers event) "authorization"))
  else None.

(** [authorizerHandler(event)] at time [now]. *)
Definition authorizerHandler (secrets : AuthSecrets) (now : Z)
  (event : AuthorizerEvent) : Policy :=
  let token := eventToken event in
  let resource := wildcard_resource (methodArn event) in
  let deny := generatePolicy "unauthorized" Deny resource None in
  match token with
  | None => deny
  | Some t =>
      if String.eqb t "" then deny else
      match verifyAccessToken secrets now (decode t) with
      | inr decoded =>
          generatePolicy (sub decoded) Allow resource (Some (claims_of decoded))
      | inl _ => deny
      end
  end.

(** [validateTokenHandler({ token })] at time [now]. *)
Definition validateTokenHandler (secrets : AuthSecrets) (now : Z) (token : string)
  : ValidateResult :=
  match verifyAccessToken secrets now (decode token) with
  | inr decoded => {| valid := true; v_user := Some (claims_of decoded);
                      v_error := None |}
  | inl e => {| valid := false; v_user := None; v_error := Some (verify_message e) |}
  end.

End Handlers.

End Authorizer.

(* ========================================================================== *)
(** * Proofs                                                                   *)
(* ========================================================================== *)

Module ValidationFacts.
Import Js Validation.
Local Open Scope string_scope.

Lemma code_inj (a b : ascii) : code a = code b -> a = b.
Proof.
  unfold code; intros H.
  rewrite <- (ascii_nat_embedding a), <- (ascii_nat_embedding b).
  f_equal; lia.
Qed.

Lemma ascii_eqb_digit_value (a b : ascii) :
  Ascii.eqb a b = Z.eqb (digit_value a) (digit_value b).
Proof.
  destruct (Ascii.eqb_spec a b) as [->|Hne].
  - symmetry; apply Z.eqb_refl.
  - symmetry; apply Z.eqb_neq; unfold digit_value; intros H.
    apply Hne, code_inj; lia.
Qed.

Lemma strip_non_digits_digits (s : list ascii) (c : ascii) :
  In c (strip_non_digits s) -> is_digit c = true.
Proof. unfold strip_non_digits; intros H; apply filter_In in H; tauto. Qed.

Lemma weighted_sum_first (a a0 a1 a2 a3 a4 a5 a6 a7 a8 a9 : ascii) :
  check_digit (weighted_sum [a; a0; a1; a2; a3; a4; a5; a6; a7; a8; a9] 9 10)
  = spec_check [10; 9; 8; 7; 6; 5; 4; 3; 2]
      (map digit_value [a; a0; a1; a2; a3; a4; a5; a6; a7; a8; a9]).
Proof.
  assert (E : weighted_sum [a; a0; a1; a2; a3; a4; a5; a6; a7; a8; a9] 9 10
              = dot [10; 9; 8; 7; 6; 5; 4; 3; 2]
                  (map digit_value [a; a0; a1; a2; a3; a4; a5; a6; a7; a8; a9]))
    by (unfold weighted_sum, dot, digit_at; simpl; ring).
  unfold check_digit, spec_check; rewrite E; reflexivity.
Qed.

Lemma weighted_sum_second (a a0 a1 a2 a3 a4 a5 a6 a7 a8 a9 : ascii) :
  check_digit (weighted_sum [a; a0; a1; a2; a3; a4; a5; a6; a7; a8; a9] 10 11)
  = spec_check [11; 10; 9; 8; 7; 6; 5; 4; 3; 2]
      (map digit_value [a; a0; a1; a2; a3; a4; a5; a6; a7; a8; a9]).
Proof.
  assert (E : weighted_sum [a; a0; a1; a2; a3; a4; a5; a6; a7; a8; a9] 10 11
              = dot [11; 10; 9; 8; 7; 6; 5; 4; 3; 2]
                  (map digit_value [a; a0; a1; a2; a3; a4; a5; a6; a7; a8; a9]))
    by (unfold weighted_sum, dot, digit_at; simpl; ring).
  unfold check_digit, spec_check; rewrite E; reflexivity.
Qed.

(** C3: [validateCpf] strips the non-digit characters, rejects unless exactly
    eleven digits remain, rejects a single repeated digit, and otherwise
    accepts iff the two modulo-11 check digits (weights descending from 10
    and from 11, remainder 10 or 11 mapped to 0) equal the tenth and eleventh
    digits; "111.444.777-35" normalizes to "11144477735" and validates,
    "111.444.777-36" and "11111111111" do not. *)
Theorem validateCpf_matches_spec :
  (forall s : string, validateCpf s = validateCpf_spec s)
  /\ normalizeCpf "111.444.777-35" = "11144477735"
  /\ validateCpf "111.444.777-35" = true
  /\ validateCpf "111.444.777-36" = false
  /\ validateCpf "11111111111" = false.
Proof.
  split; [|repeat split; reflexivity].
  intros s; unfold validateCpf, validateCpf_spec, spec_digits.
  pose proof (strip_non_digits_digits (chars s)) as Hd.
  remember (strip_non_digits (chars s)) as l eqn:E; clear E.
  do 11 (destruct l as [|? l]; [reflexivity|]).
  destruct l as [|? l]; [|reflexivity].
  cbn - [check_digit spec_check weighted_sum].
  rewrite (Hd a) by (left; reflexivity).
  rewrite Z.eqb_refl, !ascii_eqb_digit_value, weighted_sum_first,
    weighted_sum_second.
  cbn [map andb].
  destruct (_ && _); destruct ((_ =? digit_value a8)%Z);
    destruct ((_ =? digit_value a9)%Z); reflexivity.
Qed.

End ValidationFacts.

Module RateLimiterFacts.
Import RateLimiter.
Local Open Scope string_scope.

Lemma isRateLimited_fresh (st : store) (now : Z) (identifier : string) :
  match st !! identifier with None => True | Some e => now > resetTime e end ->
  isRateLimited st now identifier
  = (false, <[identifier := {| count := 1;
                               resetTime := now + RATE_LIMIT_WINDOW_MS |}]> st).
Proof.
  unfold isRateLimited; destruct (st !! identifier) as [e|]; [|reflexivity].
  intros H; replace (now >? resetTime e) with true by lia; reflexivity.
Qed.

Lemma isRateLimited_in_window (st : store) (now : Z) (identifier : string)
  (e : RateLimitEntry) :
  st !! identifier = Some e -> now <= resetTime e ->
  isRateLimited st now identifier
  = if count e + 1 >? MAX_REQUESTS_PER_WINDOW
    then (true, <[identifier := {| count := count e + 1;
                                   resetTime := now + BLOCK_DURATION_MS |}]> st)
    else (false, <[identifier := {| count := count e + 1;
                                    resetTime := resetTime e |}]> st).
Proof.
  unfold isRateLimited; intros -> H.
  replace (now >? resetTime e) with false by lia; reflexivity.
Qed.

(** C2: one call of [isRateLimited] (check-and-record) with no entry, or
    past the entry's reset time, starts a fresh window of count 1 and
    allows; otherwise it increments the count and, when the count exceeds 5,
    moves the reset time to now + 30 minutes and denies, else allows. As a
    consequence, five calls within one window are allowed, the sixth is
    denied, and once the reset time has passed a call is allowed with a
    fresh window. ([true] means limited, i.e. denied.) *)
Theorem rate_limiter_check_and_record :
  (forall (st : store) (now : Z) (identifier : string),
     (match st !! identifier with None => True | Some e => now > resetTime e end ->
      isRateLimited st now identifier
      = (false, <[identifier := {| count := 1;
                                   resetTime := now + RATE_LIMIT_WINDOW_MS |}]> st))
     /\ (forall e, st !! identifier = Some e -> now <= resetTime e ->
         isRateLimited st now identifier
         = if count e + 1 >? 5
           then (true, <[identifier := {| count := count e + 1;
                                          resetTime := now + 30 * 60 * 1000 |}]> st)
           else (false, <[identifier := {| count := count e + 1;
                                           resetTime := resetTime e |}]> st)))
  /\
  (forall (st : store) (identifier : string) (t1 t2 t3 t4 t5 t6 : Z),
     match st !! identifier with None => True | Some e => t1 > resetTime e end ->
     t2 <= t1 + RATE_LIMIT_WINDOW_MS -> t3 <= t1 + RATE_LIMIT_WINDOW_MS ->
     t4 <= t1 + RATE_LIMIT_WINDOW_MS -> t5 <= t1 + RATE_LIMIT_WINDOW_MS ->
     t6 <= t1 + RATE_LIMIT_WINDOW_MS ->
     let '(results, st') := run st identifier [t1; t2; t3; t4; t5; t6] in
     results = [false; false; false; false; false; true]
     /\ (exists e, st' !! identifier = Some e /\
         forall t, t > resetTime e ->
         isRateLimited st' t identifier
         = (false, <[identifier := {| count := 1;
                                      resetTime := t + RATE_LIMIT_WINDOW_MS |}]> st'))).
Proof.
  split.
  - intros st now identifier; split.
    + apply isRateLimited_fresh.
    + apply isRateLimited_in_window.
  - intros st identifier t1 t2 t3 t4 t5 t6 H0 H2 H3 H4 H5 H6.
    cbn [run]. rewrite (isRateLimited_fresh st t1 identifier H0).
    rewrite (isRateLimited_in_window _ t2 identifier _ (lookup_insert_eq _ _ _)) by (simpl; lia).
    cbn [count resetTime]; replace (_ >? 5) with false by reflexivity.
    cbn zeta iota beta; rewrite insert_insert_eq.
    rewrite (isRateLimited_in_window _ t3 identifier _ (lookup_insert_eq _ _ _)) by (simpl; lia).
    cbn [count resetTime]; replace (_ >? 5) with false by reflexivity.
    cbn zeta iota beta; rewrite insert_insert_eq.
    rewrite (isRateLimited_in_window _ t4 identifier _ (lookup_insert_eq _ _ _)) by (simpl; lia).
    cbn [count resetTime]; replace (_ >? 5) with false by reflexivity.
    cbn zeta iota beta; rewrite insert_insert_eq.
    rewrite (isRateLimited_in_window _ t5 identifier _ (lookup_insert_eq _ _ _)) by (simpl; lia).
    cbn [count resetTime]; replace (_ >? 5) with false by reflexivity.
    cbn zeta iota beta; rewrite insert_insert_eq.
    rewrite (isRateLimited_in_window _ t6 identifier _ (lookup_insert_eq _ _ _)) by (simpl; lia).
    cbn [count resetTime]; replace (_ >? 5) with true by reflexivity.
    cbn zeta iota beta; rewrite insert_insert_eq.
    split; [reflexivity|].
    eexists; split; [apply lookup_insert_eq|].
    intros t Ht; apply isRateLimited_fresh; rewrite lookup_insert_eq; exact Ht.
Qed.

Lemma rate_limiter_check_and_record_witness :
  (match (∅ : store) !! "203.0.113.7" with
   | None => True | Some e => 0 > resetTime e end)
  /\ let '(results, st') := run ∅ "203.0.113.7" [0; 1000; 2000; 3000; 4000; 5000] in
     results = [false; false; false; false; false; true]
     /\ (exists e, st' !! "203.0.113.7" = Some e /\
         forall t, t > resetTime e ->
         isRateLimited st' t "203.0.113.7"
         = (false, <["203.0.113.7" := {| count := 1;
                       resetTime := t + RATE_LIMIT_WINDOW_MS |}]> st')).
Proof.
  split; [exact I|].
  apply (proj2 rate_limiter_check_and_record); first [exact I | unfold RATE_LIMIT_WINDOW_MS; lia].
Defined.

End RateLimiterFacts.

Module AuthFacts.
Import Js Jwt Types JwtUtil Database AuthService Fixtures.
Local Open Scope string_scope.
Local Open Scope Z_scope.

Lemma generateAccessToken_error secrets now u e :
  generateAccessToken secrets now u = inl e -> e = SignError.
Proof.
  unfold generateAccessToken; destruct (sign _ _ _ _); congruence.
Qed.

Lemma generateRefreshToken_error secrets now uid e :
  generateRefreshToken secrets now uid = inl e -> e = SignError.
Proof.
  unfold generateRefreshToken; destruct (sign _ _ _ _); congruence.
Qed.

(** C7: a call of [refreshAccessToken] that fails with an [AuthError] (a
    rejected token: invalid, expired or of the wrong type; no valid record,
    [INVALID_REFRESH_TOKEN]; or no active user, [USER_NOT_FOUND]) leaves the
    refresh-token table, and the whole state, as it was: nothing is deleted
    or inserted, so every record valid before is still valid after. *)
Theorem refresh_failure_leaves_store (secrets : AuthSecrets) (now : Z)
  (T : Token) (s : St) (c : AuthCode) :
  fst (refreshAccessToken secrets now T s) = inl (AuthError c) ->
  snd (refreshAccessToken secrets now T s) = s.
Proof.
  unfold refreshAccessToken, bind, lift, query, update, throw, ret, save.
  destruct (verifyRefreshToken secrets now T) as [e|userId]; [reflexivity|].
  destruct (findValidRefreshToken (db s) T now) as [r|]; [|reflexivity].
  destruct (findUserById (db s) userId) as [u|]; [|reflexivity].
  cbn.
  destruct (generateAccessToken _ _ _) as [e|a] eqn:Ha; cbn.
  { apply generateAccessToken_error in Ha; subst; discriminate. }
  destruct (generateRefreshToken _ _ _) as [e|[t x]] eqn:Hr; cbn.
  { apply generateRefreshToken_error in Hr; subst; discriminate. }
  destruct (saveRefreshToken _ _ _ _); cbn; discriminate.
Qed.

Lemma refresh_failure_leaves_store_witness :
  fst (refreshAccessToken secrets0 (login_time + 500) (Malformed "not-a-jwt") st0)
    = inl (AuthError INVALID_REFRESH_TOKEN)
  /\ snd (refreshAccessToken secrets0 (login_time + 500) (Malformed "not-a-jwt") st0)
    = st0.
Proof.
  split; [vm_compute; reflexivity|].
  apply (refresh_failure_leaves_store _ _ _ _ INVALID_REFRESH_TOKEN).
  vm_compute; reflexivity.
Defined.

(** C1 (a refresh token can be presented again): the token minted by a
    refresh in the same second as the presented one was issued is the same
    string (same subject, kind, [iat] and [exp], signed with the same
    secret). The refresh deletes the row of [T0] and inserts a row for the
    same token again, so a second refresh with [T0] succeeds as well. *)
Theorem refresh_same_second_reuses_token :
  let '(r1, s1) := refreshAccessToken secrets0 (login_time + 500) T0 st0 in
  let '(r2, _) := refreshAccessToken secrets0 (login_time + 500) T0 s1 in
  (exists a1, r1 = inr a1 /\ refreshToken a1 = T0)
  /\ (exists a2, r2 = inr a2 /\ refreshToken a2 = T0)
  /\ (exists r, findValidRefreshToken (db s1) T0 (login_time + 500) = Some r).
Proof.
  vm_compute.
  split; [eexists; split; reflexivity|].
  split; [eexists; split; reflexivity|].
  eexists; reflexivity.
Qed.

Lemma find_filter_none {A} (f g : A -> bool) (l : list A) :
  (forall x, g x = true -> f x = false) -> find f (List.filter g l) = None.
Proof.
  intros H; induction l as [|x l IH]; [reflexivity|].
  cbn; destruct (g x) eqn:Hg; cbn; [rewrite (H x Hg)|]; exact IH.
Qed.

Lemma revoke_no_row (d : Db) (T : Token) (now : Z) :
  findValidRefreshToken (revokeRefreshToken d T) T now = None.
Proof.
  unfold findValidRefreshToken, revokeRefreshToken, with_refresh_tokens; cbn.
  apply find_filter_none; intros r Hr.
  destruct (bool_decide (rt_token r = T)); [discriminate|reflexivity].
Qed.

Lemma revoke_idempotent (d : Db) (T : Token) :
  revokeRefreshToken (revokeRefreshToken d T) T = revokeRefreshToken d T.
Proof.
  unfold revokeRefreshToken, with_refresh_tokens; cbn; f_equal.
  induction (refresh_tokens d) as [|r l IH]; [reflexivity|].
  cbn; destruct (bool_decide (rt_token r = T)) eqn:E; cbn; [exact IH|].
  rewrite E; cbn; f_equal; exact IH.
Qed.

(** C6: [logout(T)] deletes every row of [T] and succeeds; a second
    [logout(T)] succeeds too and changes nothing; after [logout(T)],
    [refresh(T)] fails with [INVALID_REFRESH_TOKEN] whenever [T] passes the
    token verification (otherwise it fails earlier, with the verification's
    own error). *)
Theorem logout_idempotent_then_refresh_fails (secrets : AuthSecrets) (now : Z)
  (T : Token) (s : St) :
  logout T s = (inr tt, {| db := revokeRefreshToken (db s) T; trace := trace s |})
  /\ (forall r, In r (refresh_tokens (db (snd (logout T s)))) -> rt_token r <> T)
  /\ logout T (snd (logout T s)) = (inr tt, snd (logout T s))
  /\ fst (refreshAccessToken secrets now T (snd (logout T s)))
     = match verifyRefreshToken secrets now T with
       | inr _ => inl (AuthError INVALID_REFRESH_TOKEN)
       | inl e => inl e
       end
  /\ (forall userId, verifyRefreshToken secrets now T = inr userId ->
      fst (refreshAccessToken secrets now T (snd (logout T s)))
      = inl (AuthError INVALID_REFRESH_TOKEN)).
Proof.
  assert (Hr : fst (refreshAccessToken secrets now T (snd (logout T s)))
     = match verifyRefreshToken secrets now T with
       | inr _ => inl (AuthError INVALID_REFRESH_TOKEN)
       | inl e => inl e
       end).
  { unfold refreshAccessToken, bind, lift, query, throw, logout, update.
    cbn - [findValidRefreshToken revokeRefreshToken verifyRefreshToken].
    destruct (verifyRefreshToken secrets now T); [reflexivity|].
    rewrite revoke_no_row; reflexivity. }
  split; [reflexivity|].
  split.
  { cbn; unfold revokeRefreshToken, with_refresh_tokens; cbn.
    intros r Hin; apply filter_In in Hin as [_ Hn].
    destruct (bool_decide (rt_token r = T)) eqn:E; [discriminate|].
    apply bool_decide_eq_false in E; exact E. }
  split; [unfold logout, update; cbn - [revokeRefreshToken];
          rewrite revoke_idempotent; reflexivity|].
  split; [exact Hr|].
  intros userId Hv; rewrite Hr, Hv; reflexivity.
Qed.

Lemma logout_idempotent_then_refresh_fails_witness :
  verifyRefreshToken secrets0 (login_time + 500) T0 = inr "u-alice"
  /\ fst (refreshAccessToken secrets0 (login_time + 500) T0
            (snd (logout T0 st0)))
     = inl (AuthError INVALID_REFRESH_TOKEN).
Proof.
  split; [vm_compute; reflexivity|].
  apply (proj2 (proj2 (proj2 (proj2
    (logout_idempotent_then_refresh_fails secrets0 (login_time + 500) T0 st0))))
    "u-alice").
  vm_compute; reflexivity.
Defined.

Lemma compare_full_hash (bcrypt_hash : string -> string -> string)
  (password hash : string) (s : St) :
  String.length hash = 60%nat ->
  compare bcrypt_hash password hash s
  = (inr (String.eqb (bcrypt_hash password (substring 0 29 hash)) hash),
     {| db := db s;
        trace := trace s ++ [BcryptHash password (substring 0 29 hash)] |}).
Proof.
  intros H; unfold compare; rewrite H; reflexivity.
Qed.

(** C5 (the dummy comparison does no hashing): [DUMMY_HASH] has 59
    characters, not the 60 of a bcrypt hash, so [bcrypt.compare] answers
    [false] at once for it. A login with an unknown email therefore fails
    with [INVALID_CREDENTIALS] having done no hashing at all, while a login
    with a known email hashes the password once with the stored salt,
    whatever the hash function. *)
Theorem login_unknown_email_skips_hashing
  (bcrypt_hash : string -> string -> string) :
  String.length DUMMY_HASH = 59%nat
  /\ loginWithEmail bcrypt_hash secrets0 login_time "nobody@example.com"
       "hunter22" st0 = (inl (AuthError INVALID_CREDENTIALS), st0)
  /\ trace (snd (loginWithEmail bcrypt_hash secrets0 login_time
                   "alice@example.com" "hunter22" st0))
     = [BcryptHash "hunter22" (substring 0 29 (du_password_hash alice))].
Proof.
  split; [reflexivity|]; split; [vm_compute; reflexivity|].
  unfold loginWithEmail, bind at 1, query at 1.
  replace (findUserByEmail (db st0) "alice@example.com") with (Some alice)
    by reflexivity.
  unfold bind at 1.
  rewrite compare_full_hash by reflexivity.
  destruct (String.eqb _ _); vm_compute; reflexivity.
Qed.

End AuthFacts.

Module JwtFacts.
Import Js Jwt Types JwtUtil Fixtures.
Local Open Scope string_scope.
Local Open Scope Z_scope.






(** C9 (the computed expiry of a refresh token can disagree with the
    token's own): with [JWT_REFRESH_EXPIRY = "30m"], the signed token expires
    30 minutes after issuance, while the [expiresAt] computed next to it,
    which is what the database row stores, is 7 days later: the suffix [m]
    is not handled and falls to the 7-day default. *)
Theorem refresh_expiry_minutes_mismatch :
  let secrets := {| JWT_SECRET := "s3cr3t"; JWT_ACCESS_EXPIRY := None;
                    JWT_REFRESH_EXPIRY := Some "30m" |} in
  exists p expiresAt,
    generateRefreshToken secrets login_time "u-alice"
      = inr (Signed p "s3cr3t", Some expiresAt)
    /\ exp p = Some (login_time / 1000 + 30 * 60)
    /\ expiresAt = login_time + 7 * DAY_MS
    /\ expiresAt / 1000 - (login_time / 1000 + 30 * 60) = 7 * 24 * 3600 - 1800.
Proof.
  cbv zeta; do 2 eexists; split; [vm_compute; reflexivity|].
  split; [reflexivity|]; split; [reflexivity|]; vm_compute; reflexivity.
Qed.




(** C8, as stated, fails: an access token (no [type] claim) signed with the
    configured secret but past its expiry is rejected by [jwt.verify] before
    its kind is looked at, so [verifyRefreshToken] fails with
    [REFRESH_TOKEN_EXPIRED], not with [INVALID_TOKEN_TYPE]. *)
Lemma wrong_kind_expired_not_reported :
  let access := Signed {| sub := "u-alice"; email := Some "alice@example.com";
                          name := Some "Alice"; role := Some "CLIENT";
                          clientId := None; employeeId := None; type_ := None;
                          iat := 1700000000; exp := Some 1700000900 |}
                       "s3cr3t" in
  verifyRefreshToken secrets0 (login_time + 3600000) access
    = inl (AuthError REFRESH_TOKEN_EXPIRED)
  /\ verifyRefreshToken secrets0 (login_time + 3600000) access
     <> inl (AuthError INVALID_TOKEN_TYPE).
Proof. vm_compute; split; [reflexivity|discriminate]. Qed.

(** C8, amended: for a token signed with the configured (non-empty) secret
    and not expired, [verifyRefreshToken] returns the subject when the kind
    claim is ["refresh"] and fails with [INVALID_TOKEN_TYPE] otherwise; an
    expired token fails with [REFRESH_TOKEN_EXPIRED] whatever its kind. *)
Theorem verifyRefreshToken_kind (secrets : AuthSecrets) (now : Z) (p : Payload) :
  JWT_SECRET secrets <> "" ->
  (match exp p with Some e => now / 1000 < e | None => True end ->
   (type_ p <> Some "refresh" ->
    verifyRefreshToken secrets now (Signed p (JWT_SECRET secrets))
    = inl (AuthError INVALID_TOKEN_TYPE))
   /\ (type_ p = Some "refresh" ->
       verifyRefreshToken secrets now (Signed p (JWT_SECRET secrets))
       = inr (sub p)))
  /\ (forall e, exp p = Some e -> e <= now / 1000 ->
      verifyRefreshToken secrets now (Signed p (JWT_SECRET secrets))
      = inl (AuthError REFRESH_TOKEN_EXPIRED)).
Proof.
  intros Hs.
  assert (Hk : String.eqb (JWT_SECRET secrets) "" || negb (String.eqb
                 (JWT_SECRET secrets) (JWT_SECRET secrets)) = false).
  { rewrite String.eqb_refl; apply orb_false_iff; split; [|reflexivity].
    apply String.eqb_neq; exact Hs. }
  unfold verifyRefreshToken, verify; rewrite Hk.
  split.
  - intros Hexp.
    assert (Hv : match exp p with
                 | Some e => if now / 1000 >=? e then inl TokenExpiredError
                             else inr p
                 | None => inr p
                 end = inr p).
    { destruct (exp p) as [e|]; [|reflexivity].
      replace (now / 1000 >=? e) with false by lia; reflexivity. }
    rewrite Hv; split.
    + intros Ht; destruct (type_ p) as [t|]; [|reflexivity].
      destruct (String.eqb_spec t "refresh") as [->|Hne]; [congruence|].
      destruct t as [|a t]; [reflexivity|].
      repeat (match goal with
              | |- context [match ?a with Ascii _ _ _ _ _ _ _ _ => _ end] =>
                  destruct a as [[] [] [] [] [] [] [] []]
              | |- context [match ?t with EmptyString => _ | String _ _ => _ end] =>
                  destruct t
              end; try reflexivity); congruence.
    + intros ->; reflexivity.
  - intros e -> He; replace (now / 1000 >=? e) with true by lia; reflexivity.
Qed.

Lemma verifyRefreshToken_kind_witness :
  let p := {| sub := "u-alice"; email := Some "alice@example.com";
              name := Some "Alice"; role := Some "CLIENT";
              clientId := None; employeeId := None; type_ := None;
              iat := 1700000000; exp := Some 1700000900 |} in
  JWT_SECRET secrets0 <> ""
  /\ verifyRefreshToken secrets0 login_time (Signed p "s3cr3t")
     = inl (AuthError INVALID_TOKEN_TYPE).
Proof.
  cbv zeta; split; [discriminate|].
  apply (proj1 (proj1 (verifyRefreshToken_kind secrets0 login_time
    {| sub := "u-alice"; email := Some "alice@example.com";
       name := Some "Alice"; role := Some "CLIENT";
       clientId := None; employeeId := None; type_ := None;
       iat := 1700000000; exp := Some 1700000900 |} ltac:(discriminate))
    ltac:(vm_compute; reflexivity))).
  discriminate.
Defined.

(** C4: for every identity whose optional client and employee references are
    non-empty when present, and a configured access lifetime that [ms] reads
    as a whole number of milliseconds [num] between one second and [10^14]
    milliseconds (about 3170 years), the token issued by
    [generateAccessToken] at a time [now] in the range of [Date.now()] from
    1970 on is accepted by [verifyAccessToken] at that time, with claims
    equal to the identity's public fields, and [exp - iat] is the configured
    lifetime to within one second. In this range the floating-point
    arithmetic of [ms] and [timespan] is exact (see [Jwt.ms]). *)
Theorem access_token_roundtrip (secrets : AuthSecrets) (now : Z)
  (user : UserInfo) (num : Z) :
  JWT_SECRET secrets <> "" ->
  ms (or_default (JWT_ACCESS_EXPIRY secrets) "15m") = Some (num, 0%nat) ->
  1000 <= num <= 10 ^ 14 ->
  0 <= now <= 8640000000000000 ->
  truthy (u_clientId user) = u_clientId user ->
  truthy (u_employeeId user) = u_employeeId user ->
  exists token p e,
    generateAccessToken secrets now user = inr token
    /\ verifyAccessToken secrets now token = inr p
    /\ sub p = id user /\ email p = Some (u_email user)
    /\ name p = Some (u_name user) /\ role p = Some (u_role user)
    /\ clientId p = u_clientId user /\ employeeId p = u_employeeId user
    /\ iat p = now / 1000 /\ exp p = Some e
    /\ Z.abs ((e - iat p) * 1000 - num) < 1000.
Proof.
  intros Hs Hms Hnum _ Hc He.
  assert (Hq : 1 <= num / 1000) by (apply Z.div_le_lower_bound; lia).
  assert (Hsec : String.eqb (JWT_SECRET secrets) "" = false)
    by (apply String.eqb_neq; exact Hs).
  unfold generateAccessToken, sign, timespan; rewrite Hsec, Hms.
  eexists _, _, _; split; [reflexivity|].
  unfold verifyAccessToken, verify; cbn [exp].
  rewrite Hsec, String.eqb_refl; cbn [orb negb].
  change (10 ^ Z.of_nat 0 * 1000) with 1000.
  replace (now / 1000 >=? now / 1000 + num / 1000) with false by lia.
  split; [reflexivity|]; cbn.
  rewrite Hc, He.
  do 8 (split; [reflexivity|]).
  pose proof (Z.div_mod num 1000 ltac:(lia)) as Hdm.
  pose proof (Z.mod_pos_bound num 1000 ltac:(lia)) as Hmb.
  replace (now / 1000 + num / 1000 - now / 1000) with (num / 1000) by lia.
  rewrite Z.abs_lt; lia.
Qed.

Lemma access_token_roundtrip_witness :
  let user := {| id := "u-alice"; u_email := "alice@example.com";
                 u_name := "Alice"; u_role := "CLIENT";
                 u_clientId := Some "c-alice"; u_employeeId := None |} in
  ms (or_default (JWT_ACCESS_EXPIRY secrets0) "15m") = Some (900000, 0%nat)
  /\ 0 <= login_time <= 8640000000000000
  /\ exists token p e,
    generateAccessToken secrets0 login_time user = inr token
    /\ verifyAccessToken secrets0 login_time token = inr p
    /\ sub p = id user /\ email p = Some (u_email user)
    /\ name p = Some (u_name user) /\ role p = Some (u_role user)
    /\ clientId p = u_clientId user /\ employeeId p = u_employeeId user
    /\ iat p = login_time / 1000 /\ exp p = Some e
    /\ Z.abs ((e - iat p) * 1000 - 900000) < 1000.
Proof.
  cbv zeta; split; [vm_compute; reflexivity|].
  split; [unfold login_time; lia|].
  apply access_token_roundtrip.
  - discriminate.
  - vm_compute; reflexivity.
  - lia.
  - unfold login_time; lia.
  - reflexivity.
  - reflexivity.
Defined.

End JwtFacts.

Module RateLimiterOpsFacts.
Import RateLimiter RateLimiterOps RateLimiterFacts.
Local Open Scope string_scope.

Lemma cleanup_fold_lookup (now : Z) (st : store) (l : list (string * RateLimitEntry))
  (k : string) :
  foldr (fun '(key, entry) acc =>
           if now >? resetTime entry then delete key acc else acc) st l !! k
  = if existsb (fun '(key, entry) => bool_decide (key = k) && (now >? resetTime entry)) l
    then None else st !! k.
Proof.
  induction l as [|[k' e] l IH]; cbn [foldr existsb]; [reflexivity|].
  destruct (now >? resetTime e) eqn:He.
  - destruct (decide (k' = k)) as [->|Hne].
    + rewrite lookup_delete_eq, bool_decide_true by reflexivity; reflexivity.
    + rewrite lookup_delete_ne by exact Hne.
      rewrite bool_decide_false by exact Hne; exact IH.
  - rewrite andb_false_r; exact IH.
Qed.

Lemma cleanupExpiredEntries_lookup (st : store) (now : Z) (k : string) :
  cleanupExpiredEntries st now !! k
  = match st !! k with
    | Some e => if now >? resetTime e then None else Some e
    | None => None
    end.
Proof.
  unfold cleanupExpiredEntries; rewrite cleanup_fold_lookup.
  destruct (st !! k) as [e|] eqn:Hk.
  - assert (Hin : (k, e) ∈ map_to_list st) by (apply elem_of_map_to_list; exact Hk).
    destruct (now >? resetTime e) eqn:He.
    + replace (existsb _ _) with true; [reflexivity|].
      symmetry; apply existsb_exists; exists (k, e); split.
      * apply list_elem_of_In; exact Hin.
      * rewrite bool_decide_true by reflexivity; exact He.
    + replace (existsb _ _) with false; [reflexivity|].
      symmetry; apply not_true_iff_false; intros Hex.
      apply existsb_exists in Hex as [[k' e'] [Hin' Hb]].
      apply andb_true_iff in Hb as [Hkk He'].
      apply bool_decide_eq_true in Hkk; subst k'.
      apply list_elem_of_In, elem_of_map_to_list in Hin'.
      rewrite Hk in Hin'; injection Hin' as <-; congruence.
  - replace (existsb _ _) with false; [reflexivity|].
    symmetry; apply not_true_iff_false; intros Hex.
    apply existsb_exists in Hex as [[k' e'] [Hin' Hb]].
    apply andb_true_iff in Hb as [Hkk _].
    apply bool_decide_eq_true in Hkk; subst k'.
    apply list_elem_of_In, elem_of_map_to_list in Hin'; congruence.
Qed.

(** Allowed calls within one window raise the count of the entry by one each
    and keep its reset time. *)
Lemma run_in_window (identifier : string) (R : Z) (ts : list Z) :
  forall (st : store) (c : Z),
  st !! identifier = Some {| count := c; resetTime := R |} ->
  Forall (fun t => t <= R) ts ->
  c + Z.of_nat (length ts) <= MAX_REQUESTS_PER_WINDOW ->
  fst (run st identifier ts) = repeat false (length ts)
  /\ snd (run st identifier ts) !! identifier
     = Some {| count := c + Z.of_nat (length ts); resetTime := R |}.
Proof.
  induction ts as [|t ts IH]; intros st c Hst Hts Hc.
  - cbn; rewrite Hst, Z.add_0_r; split; reflexivity.
  - inversion Hts as [|? ? Ht Hts']; subst.
    cbn [run]; rewrite (isRateLimited_in_window st t identifier _ Hst) by exact Ht.
    cbn [count resetTime] in *.
    replace (c + 1 >? MAX_REQUESTS_PER_WINDOW) with false
      by (cbn [length] in Hc; symmetry; rewrite Z.gtb_ltb; apply Z.ltb_ge; unfold MAX_REQUESTS_PER_WINDOW in *; lia).
    destruct (IH (<[identifier := {| count := c + 1; resetTime := R |}]> st) (c + 1))
      as [H1 H2].
    + apply lookup_insert_eq.
    + exact Hts'.
    + cbn [length] in Hc; lia.
    + destruct (run _ identifier ts) as [rs st''] eqn:Hrun; cbn in H1, H2 |- *.
      rewrite H1; split; [reflexivity|].
      rewrite H2; do 2 f_equal; lia.
Qed.

(** X1: [getRemainingRequests] counts down. From no entry (or an expired
    one), after a first call at [t1] and further calls at times within the
    window that call opened, [k <= 5] calls in all, every call is allowed and
    [getRemainingRequests] at any instant of that window is [5 - k]. *)
Theorem remaining_requests_count_down (st : store) (identifier : string)
  (t1 now : Z) (ts : list Z) :
  match st !! identifier with None => True | Some e => t1 > resetTime e end ->
  Forall (fun t => t <= t1 + RATE_LIMIT_WINDOW_MS) ts ->
  (length ts < 5)%nat ->
  now <= t1 + RATE_LIMIT_WINDOW_MS ->
  fst (run st identifier (t1 :: ts)) = repeat false (S (length ts))
  /\ getRemainingRequests (snd (run st identifier (t1 :: ts))) now identifier
     = 5 - Z.of_nat (S (length ts)).
Proof.
  intros Hfresh Hts Hlen Hnow.
  cbn [run]; rewrite (isRateLimited_fresh st t1 identifier Hfresh).
  destruct (run_in_window identifier (t1 + RATE_LIMIT_WINDOW_MS) ts
              (<[identifier := {| count := 1;
                                  resetTime := t1 + RATE_LIMIT_WINDOW_MS |}]> st) 1)
    as [H1 H2].
  - apply lookup_insert_eq.
  - exact Hts.
  - unfold MAX_REQUESTS_PER_WINDOW; lia.
  - destruct (run _ identifier ts) as [rs st''] eqn:Hrun; cbn in H1, H2 |- *.
    rewrite H1; split; [reflexivity|].
    unfold getRemainingRequests; rewrite H2; cbn [resetTime count].
    replace (now >? t1 + RATE_LIMIT_WINDOW_MS) with false
      by (symmetry; rewrite Z.gtb_ltb; apply Z.ltb_ge; unfold MAX_REQUESTS_PER_WINDOW in *; lia).
    unfold MAX_REQUESTS_PER_WINDOW; lia.
Qed.

Lemma remaining_requests_count_down_witness :
  (length [60000%Z; 120000%Z; 180000%Z] < 5)%nat
  /\ fst (run ∅ "198.51.100.4" [0; 60000; 120000; 180000])
     = repeat false 4
  /\ getRemainingRequests (snd (run ∅ "198.51.100.4" [0; 60000; 120000; 180000]))
       600000 "198.51.100.4" = 1.
Proof.
  split; [cbn; lia|].
  apply (remaining_requests_count_down ∅ "198.51.100.4" 0 600000
           [60000; 120000; 180000]).
  - exact I.
  - repeat constructor; unfold RATE_LIMIT_WINDOW_MS; lia.
  - cbn; lia.
  - unfold RATE_LIMIT_WINDOW_MS; lia.
Defined.

(** X2: once [isRateLimited] denies a request at time [now], the
    identifier has no request left until its reset time, which
    [getResetTime] gives as thirty minutes after [now]. The handler's
    [retryAfter] is that reset time minus its own later clock read [now'];
    while [now'] is less than thirty minutes after [now], the [Retry-After]
    header is [1800] seconds less the whole seconds elapsed between the two
    reads (for a [Date.now()] that is not negative). *)
Theorem blocked_retry_after (st st' : store) (now now' : Z) (clientId : string)
  (retryAfter : option Z) :
  0 <= now ->
  rateLimitCheck st now now' clientId = (Some retryAfter, st') ->
  (forall t, t <= now + 30 * 60 * 1000 -> getRemainingRequests st' t clientId = 0)
  /\ getResetTime st' clientId = Some (now + 30 * 60 * 1000)
  /\ retryAfter = Some (now + 30 * 60 * 1000 - now')
  /\ (now <= now' < now + 30 * 60 * 1000 ->
      retryAfterHeader retryAfter = Some (1800 - (now' - now) / 1000)).
Proof.
  intros Hnow; unfold rateLimitCheck, isRateLimited.
  destruct (st !! clientId) as [e|] eqn:He; [|discriminate].
  destruct (now >? resetTime e) eqn:Hr; [discriminate|].
  cbn [count resetTime].
  destruct (count e + 1 >? MAX_REQUESTS_PER_WINDOW) eqn:Hc; [|discriminate].
  intros H; injection H as <- <-.
  unfold getRemainingRequests, getResetTime; rewrite !lookup_insert_eq.
  cbn [count resetTime].
  apply Z.gtb_lt in Hc; unfold MAX_REQUESTS_PER_WINDOW, BLOCK_DURATION_MS in *.
  replace (Z.eqb (now + 30 * 60 * 1000) 0) with false by (symmetry; apply Z.eqb_neq; lia).
  split; [|split; [reflexivity|split; [reflexivity|]]].
  - intros t Ht.
    replace (t >? now + 30 * 60 * 1000) with false
      by (symmetry; rewrite Z.gtb_ltb; apply Z.ltb_ge; lia).
    lia.
  - intros Hd; unfold retryAfterHeader.
    replace (Z.eqb (now + 30 * 60 * 1000 - now') 0) with false
      by (symmetry; apply Z.eqb_neq; lia).
    replace (- (now + 30 * 60 * 1000 - now')) with ((now' - now) + (-1800) * 1000) by lia.
    rewrite Z.div_add by lia.
    f_equal; lia.
Qed.

Lemma blocked_retry_after_witness :
  let st := snd (run ∅ "203.0.113.9" [0; 1; 2; 3; 4]) in
  0 <= 5
  /\ rateLimitCheck st 5 2505 "203.0.113.9"
     = (Some (Some (30 * 60 * 1000 - 2500)), snd (isRateLimited st 5 "203.0.113.9"))
  /\ ((forall t, t <= 5 + 30 * 60 * 1000 ->
        getRemainingRequests (snd (isRateLimited st 5 "203.0.113.9")) t "203.0.113.9" = 0)
      /\ getResetTime (snd (isRateLimited st 5 "203.0.113.9")) "203.0.113.9"
         = Some (5 + 30 * 60 * 1000)
      /\ Some (30 * 60 * 1000 - 2500) = Some (5 + 30 * 60 * 1000 - 2505)
      /\ (5 <= 2505 < 5 + 30 * 60 * 1000 ->
          retryAfterHeader (Some (30 * 60 * 1000 - 2500)) = Some (1800 - (2505 - 5) / 1000))).
Proof.
  cbv zeta.
  assert (H : rateLimitCheck (snd (run ∅ "203.0.113.9" [0; 1; 2; 3; 4])) 5 2505 "203.0.113.9"
              = (Some (Some (30 * 60 * 1000 - 2500)),
                 snd (isRateLimited (snd (run ∅ "203.0.113.9" [0; 1; 2; 3; 4]))
                        5 "203.0.113.9")))
    by (vm_compute; reflexivity).
  split; [lia|]; split; [exact H|].
  exact (blocked_retry_after _ _ 5 2505 "203.0.113.9" _ ltac:(lia) H).
Defined.

(** X3: [cleanupExpiredEntries] removes exactly the entries whose reset time
    has passed and keeps every other entry as it was. *)
Theorem cleanup_keeps_unexpired (st : store) (now : Z) (k : string) :
  cleanupExpiredEntries st now !! k
  = match st !! k with
    | Some e => if now >? resetTime e then None else Some e
    | None => None
    end.
Proof. apply cleanupExpiredEntries_lookup. Qed.

(** X4: a cleanup at time [now] is invisible to the limiter afterwards: at any
    later time [t], [isRateLimited] gives the same answer and leaves the same
    entry for the identifier, and [getRemainingRequests] gives the same
    count, as without the cleanup. *)
Theorem cleanup_unobservable (st : store) (now t : Z) (identifier : string) :
  now <= t ->
  fst (isRateLimited (cleanupExpiredEntries st now) t identifier)
  = fst (isRateLimited st t identifier)
  /\ snd (isRateLimited (cleanupExpiredEntries st now) t identifier) !! identifier
     = snd (isRateLimited st t identifier) !! identifier
  /\ getRemainingRequests (cleanupExpiredEntries st now) t identifier
     = getRemainingRequests st t identifier.
Proof.
  intros Ht; unfold isRateLimited, getRemainingRequests.
  rewrite cleanupExpiredEntries_lookup.
  destruct (st !! identifier) as [e|];
    [|repeat split; cbn [fst snd]; rewrite ?lookup_insert_eq; reflexivity].
  destruct (now >? resetTime e) eqn:He.
  - replace (t >? resetTime e) with true
      by (symmetry; apply Z.gtb_lt; apply Z.gtb_lt in He; lia).
    repeat split; cbn [fst snd]; rewrite ?lookup_insert_eq; reflexivity.
  - destruct (t >? resetTime e); [|destruct (_ >? MAX_REQUESTS_PER_WINDOW)];
      repeat split; cbn [fst snd]; rewrite ?lookup_insert_eq; reflexivity.
Qed.

Lemma cleanup_unobservable_witness :
  let st := <["a" := {| count := 3; resetTime := 100 |}]>
            (<["b" := {| count := 6; resetTime := 500 |}]> (∅ : store)) in
  (200 <= 300)
  /\ (fst (isRateLimited (cleanupExpiredEntries st 200) 300 "b")
      = fst (isRateLimited st 300 "b")
      /\ snd (isRateLimited (cleanupExpiredEntries st 200) 300 "b") !! "b"
         = snd (isRateLimited st 300 "b") !! "b"
      /\ getRemainingRequests (cleanupExpiredEntries st 200) 300 "b"
         = getRemainingRequests st 300 "b").
Proof.
  cbv zeta; split; [lia|].
  apply cleanup_unobservable; lia.
Defined.

(** X5: [clearRateLimit] gives the identifier a fresh start: its next call is
    allowed and opens a new window of count 1, whatever its entry was, and the
    entries of other identifiers are untouched. *)
Theorem clear_then_fresh (st : store) (now : Z) (identifier other : string) :
  isRateLimited (clearRateLimit st identifier) now identifier
  = (false, <[identifier := {| count := 1;
                               resetTime := now + RATE_LIMIT_WINDOW_MS |}]>
              (delete identifier st))
  /\ getRemainingRequests (clearRateLimit st identifier) now identifier
     = MAX_REQUESTS_PER_WINDOW
  /\ getResetTime (clearRateLimit st identifier) identifier = None
  /\ (other <> identifier ->
      clearRateLimit st identifier !! other = st !! other).
Proof.
  unfold clearRateLimit, isRateLimited, getRemainingRequests, getResetTime.
  rewrite lookup_delete_eq.
  split; [reflexivity|]; split; [reflexivity|]; split; [reflexivity|].
  intros Hne; apply lookup_delete_ne; congruence.
Qed.

Lemma clear_then_fresh_witness :
  let st := <["a" := {| count := 6; resetTime := 5000 |}]>
            (<["b" := {| count := 2; resetTime := 900 |}]> (∅ : store)) in
  "b" <> "a"
  /\ (isRateLimited (clearRateLimit st "a") 100 "a"
      = (false, <["a" := {| count := 1; resetTime := 100 + RATE_LIMIT_WINDOW_MS |}]>
                  (delete "a" st))
      /\ getRemainingRequests (clearRateLimit st "a") 100 "a" = MAX_REQUESTS_PER_WINDOW
      /\ getResetTime (clearRateLimit st "a") "a" = None
      /\ ("b" <> "a" -> clearRateLimit st "a" !! "b" = st !! "b")).
Proof.
  cbv zeta; split; [discriminate|].
  exact (clear_then_fresh _ 100 "a" "b").
Defined.

End RateLimiterOpsFacts.

Module RequestsFacts.
Import Js Validation Requests.
Local Open Scope string_scope.

Lemma filter_idem {A} (f : A -> bool) (l : list A) :
  List.filter f (List.filter f l) = List.filter f l.
Proof.
  induction l as [|x l IH]; cbn; [reflexivity|].
  destruct (f x) eqn:Hx; cbn; [rewrite Hx, IH|]; exact IH || reflexivity.
Qed.

Lemma chars_string (l : list ascii) : chars (string_of_list_ascii l) = l.
Proof. apply list_ascii_of_string_of_list_ascii. Qed.

Lemma length_chars (s : string) : List.length (chars s) = String.length s.
Proof. induction s as [|c s IH]; cbn; [reflexivity|]; rewrite <- IH; reflexivity. Qed.

Lemma strip_non_digits_all_digits (l : list ascii) :
  forallb is_digit (strip_non_digits l) = true.
Proof.
  unfold strip_non_digits; induction l as [|c l IH]; cbn; [reflexivity|].
  destruct (is_digit c) eqn:Hc; cbn; [rewrite Hc|]; exact IH.
Qed.

Lemma validateCpf_length (cpf : string) :
  validateCpf cpf = true -> List.length (strip_non_digits (chars cpf)) = 11%nat.
Proof.
  unfold validateCpf.
  destruct (Nat.eqb (List.length (strip_non_digits (chars cpf))) 11) eqn:H;
    cbn; [intros _; apply Nat.eqb_eq; exact H | discriminate].
Qed.

Lemma validateCpf_normalize (cpf : string) :
  validateCpf (normalizeCpf cpf) = validateCpf cpf.
Proof.
  unfold validateCpf, normalizeCpf; rewrite chars_string.
  unfold strip_non_digits at 1; fold (strip_non_digits (chars cpf)).
  unfold strip_non_digits; rewrite filter_idem; reflexivity.
Qed.

(** X6: a CPF accepted by [validateCpfLoginRequest] comes back as exactly
    eleven digits, with the formatting removed; it passes [validateCpf]
    again and [normalizeCpf] leaves it as it is. *)
Theorem cpf_request_normal_form (body : JValue) (cpf : string) :
  validateCpfLoginRequest body = inr cpf ->
  String.length cpf = 11%nat
  /\ forallb is_digit (chars cpf) = true
  /\ validateCpf cpf = true
  /\ normalizeCpf cpf = cpf.
Proof.
  unfold validateCpfLoginRequest.
  destruct (is_object body); cbn [negb]; [|discriminate].
  destruct (string_field body "cpf") as [raw|]; [|discriminate].
  destruct (validateCpf raw) eqn:Hv; cbn [negb]; [|discriminate].
  intros H; injection H as <-.
  split; [|split; [|split]].
  - rewrite <- length_chars; unfold normalizeCpf; rewrite chars_string.
    apply validateCpf_length; exact Hv.
  - unfold normalizeCpf; rewrite chars_string; apply strip_non_digits_all_digits.
  - rewrite validateCpf_normalize; exact Hv.
  - unfold normalizeCpf at 1 2; rewrite chars_string.
    unfold strip_non_digits; rewrite filter_idem; reflexivity.
Qed.

Lemma cpf_request_normal_form_witness :
  validateCpfLoginRequest (JObj [("cpf", JStr "529.982.247-25")]) = inr "52998224725"
  /\ (String.length "52998224725" = 11%nat
      /\ forallb is_digit (chars "52998224725") = true
      /\ validateCpf "52998224725" = true
      /\ normalizeCpf "52998224725" = "52998224725").
Proof.
  assert (H : validateCpfLoginRequest (JObj [("cpf", JStr "529.982.247-25")])
              = inr "52998224725") by (vm_compute; reflexivity).
  split; [exact H|]; exact (cpf_request_normal_form _ _ H).
Defined.

(** ** Emails *)

Lemma split_on_chars (sep c : ascii) (s : list ascii) :
  In c s -> c = sep \/ exists w, In w (split_on sep s) /\ In c w.
Proof.
  induction s as [|x s IH]; cbn; [intros []|].
  destruct (Ascii.eqb x sep) eqn:Hx.
  - intros [->|Hin]; [left; apply Ascii.eqb_eq; exact Hx|].
    destruct (IH Hin) as [|[w [Hw Hcw]]]; [left; assumption|].
    right; exists w; split; [right; exact Hw|exact Hcw].
  - intros Hin.
    destruct (split_on sep s) as [|w ws] eqn:Hs.
    + destruct Hin as [->|Hin]; [right; exists [c]; split; left; reflexivity|].
      destruct (IH Hin) as [|[w [[] _]]]; left; assumption.
    + destruct Hin as [->|Hin].
      * right; exists (c :: w); split; left; reflexivity.
      * destruct (IH Hin) as [|[w' [[Hw|Hw'] Hcw]]]; [left; assumption| |].
        -- subst w'; right; exists (x :: w); split; [left; reflexivity|right; exact Hcw].
        -- right; exists w'; split; [right; exact Hw'|exact Hcw].
Qed.

(** Every character of a string the email expression accepts is a local-part
    character, a label character, ["@"] or ["."]: never whitespace. *)
Lemma email_regex_no_space (s : list ascii) :
  email_regex s = true -> forallb (fun c => negb (is_js_space c)) s = true.
Proof.
  unfold email_regex; intros H.
  apply forallb_forall; intros c Hc.
  destruct (split_on "@"%char s) as [|loc [|domain [|? ?]]] eqn:Hs; try discriminate.
  apply andb_true_iff in H as [H Hdom]; apply andb_true_iff in H as [_ Hloc].
  destruct (split_on_chars "@"%char c s Hc) as [->|[w [Hw Hcw]]]; [reflexivity|].
  rewrite Hs in Hw.
  assert (Hchar : local_char c = true \/ is_alnum c = true \/ c = "-"%char \/ c = "."%char).
  { destruct Hw as [<-|[<-|[]]].
    - left; eapply forallb_forall; [exact Hloc|exact Hcw].
    - destruct (split_on_chars "."%char c domain Hcw) as [->|[l [Hl Hcl]]];
        [right; right; right; reflexivity|].
      assert (Hlab : label_ok l = true) by (eapply forallb_forall; [exact Hdom|exact Hl]).
      unfold label_ok in Hlab; destruct l as [|c0 l']; [discriminate|].
      apply andb_true_iff in Hlab as [Hlab _]; apply andb_true_iff in Hlab as [_ Hall].
      pose proof (proj1 (forallb_forall _ _) Hall c Hcl) as Hc'.
      apply orb_true_iff in Hc' as [Ha|Hd]; [right; left; exact Ha|].
      right; right; left; apply Ascii.eqb_eq; exact Hd. }
  clear -Hchar.
  destruct c as [[] [] [] [] [] [] [] []];
    destruct Hchar as [H|[H|[H|H]]]; try discriminate; reflexivity.
Qed.

Lemma skip_spaces_id (l : list ascii) :
  forallb (fun c => negb (is_js_space c)) l = true -> skip_spaces l = l.
Proof.
  destruct l as [|c l]; cbn; [reflexivity|].
  intros H; apply andb_true_iff in H as [H _]; apply negb_true_iff in H.
  rewrite H; reflexivity.
Qed.

Lemma lower_space (c : ascii) : is_js_space (Jwt.lower c) = is_js_space c.
Proof. destruct c as [[] [] [] [] [] [] [] []]; reflexivity. Qed.

Lemma lower_not_upper (c : ascii) : is_upper (Jwt.lower c) = false.
Proof. destruct c as [[] [] [] [] [] [] [] []]; reflexivity. Qed.

Lemma trim_to_lower (l : list ascii) :
  forallb (fun c => negb (is_js_space c)) l = true -> trim (to_lower l) = to_lower l.
Proof.
  intros H.
  assert (H' : forallb (fun c => negb (is_js_space c)) (to_lower l) = true).
  { apply forallb_forall; intros c Hc; unfold to_lower in Hc.
    apply in_map_iff in Hc as [c0 [<- Hc0]]; rewrite lower_space.
    exact (proj1 (forallb_forall _ _) H c0 Hc0). }
  unfold trim; rewrite (skip_spaces_id _ H'), skip_spaces_id, rev_involutive;
    [reflexivity|].
  apply forallb_forall; intros c Hc; apply in_rev in Hc.
  exact (proj1 (forallb_forall _ _) H' c Hc).
Qed.

Lemma email_request_lower (body : JValue) (e p : string) :
  validateEmailLoginRequest body = inr (e, p) ->
  exists email, string_field body "email" = Some email
  /\ validateEmail email = true
  /\ e = string_of_list_ascii (to_lower (chars email))
  /\ string_field body "password" = Some p
  /\ (6 <= String.length p)%nat.
Proof.
  unfold validateEmailLoginRequest.
  destruct (is_object body); cbn [negb]; [|discriminate].
  destruct (string_field body "email") as [email|]; [|discriminate].
  destruct (validateEmail email) eqn:Hv; cbn [negb]; [|discriminate].
  destruct (string_field body "password") as [pw|]; [|discriminate].
  destruct (Nat.ltb (String.length pw) 6) eqn:Hl; [discriminate|].
  intros H; injection H as <- <-.
  exists email; split; [reflexivity|]; split; [exact Hv|]; split.
  - rewrite trim_to_lower; [reflexivity|].
    apply email_regex_no_space.
    unfold validateEmail in Hv.
    destruct (String.eqb email "" || Nat.ltb 254 (String.length email));
      [discriminate|exact Hv].
  - split; [reflexivity|]; apply Nat.ltb_ge; exact Hl.
Qed.

(** X7: the email returned by [validateEmailLoginRequest] is the submitted
    email in lower case: the [trim()] never removes anything, because an
    email that passes [validateEmail] has no whitespace. The password is
    returned as submitted and has at least 6 characters. *)
Theorem email_request_lowercases (body : JValue) (e p : string) :
  validateEmailLoginRequest body = inr (e, p) ->
  exists email, string_field body "email" = Some email
  /\ validateEmail email = true
  /\ e = string_of_list_ascii (map Jwt.lower (chars email))
  /\ string_field body "password" = Some p
  /\ (6 <= String.length p)%nat.
Proof. apply email_request_lower. Qed.

Lemma email_request_lowercases_witness :
  validateEmailLoginRequest
    (JObj [("email", JStr "Alice@Example.COM"); ("password", JStr "hunter22")])
  = inr ("alice@example.com", "hunter22")
  /\ exists email,
       string_field (JObj [("email", JStr "Alice@Example.COM");
                           ("password", JStr "hunter22")]) "email" = Some email
       /\ validateEmail email = true
       /\ "alice@example.com" = string_of_list_ascii (map Jwt.lower (chars email))
       /\ string_field (JObj [("email", JStr "Alice@Example.COM");
                              ("password", JStr "hunter22")]) "password"
          = Some "hunter22"
       /\ (6 <= String.length "hunter22")%nat.
Proof.
  assert (H : validateEmailLoginRequest
                (JObj [("email", JStr "Alice@Example.COM"); ("password", JStr "hunter22")])
              = inr ("alice@example.com", "hunter22")) by (vm_compute; reflexivity).
  split; [exact H|]; exact (email_request_lowercases _ _ _ H).
Defined.

(** X8: a user whose stored email has an upper-case letter is never found by
    the email that [validateEmailLoginRequest] hands to [loginWithEmail]:
    the lookup compares the lower-cased email exactly. *)
Theorem uppercase_email_unreachable (body : JValue) (e p : string)
  (d : Database.Db) (u : Database.DbUser) :
  validateEmailLoginRequest body = inr (e, p) ->
  existsb is_upper (chars (Database.du_email u)) = true ->
  Database.findUserByEmail d e <> Some u.
Proof.
  intros Hreq Hup Hfind.
  destruct (email_request_lower body e p Hreq) as [email [_ [_ [He _]]]].
  unfold Database.findUserByEmail in Hfind.
  apply find_some in Hfind as [_ Hm].
  apply andb_true_iff in Hm as [Heq _]; apply String.eqb_eq in Heq.
  rewrite Heq, He, chars_string in Hup.
  unfold to_lower in Hup.
  apply existsb_exists in Hup as [c [Hc Hu]].
  apply in_map_iff in Hc as [c0 [<- _]].
  rewrite lower_not_upper in Hu; discriminate.
Qed.

Lemma uppercase_email_unreachable_witness :
  validateEmailLoginRequest
    (JObj [("email", JStr "Bob@Example.com"); ("password", JStr "hunter22")])
  = inr ("bob@example.com", "hunter22")
  /\ existsb is_upper (chars "Bob@Example.com") = true
  /\ Database.findUserByEmail
       {| Database.users :=
            [{| Database.du_id := "u-bob"; Database.du_email := "Bob@Example.com";
                Database.du_password_hash := ""; Database.du_name := "Bob";
                Database.du_role := "CLIENT"; Database.du_isActive := true;
                Database.du_clientId := None; Database.du_employeeId := None |}];
          Database.clients := []; Database.employees := [];
          Database.refresh_tokens := [] |}
       "bob@example.com"
     <> Some {| Database.du_id := "u-bob"; Database.du_email := "Bob@Example.com";
                Database.du_password_hash := ""; Database.du_name := "Bob";
                Database.du_role := "CLIENT"; Database.du_isActive := true;
                Database.du_clientId := None; Database.du_employeeId := None |}.
Proof.
  assert (H : validateEmailLoginRequest
                (JObj [("email", JStr "Bob@Example.com"); ("password", JStr "hunter22")])
              = inr ("bob@example.com", "hunter22")) by (vm_compute; reflexivity).
  assert (Hu : existsb is_upper (chars "Bob@Example.com") = true) by reflexivity.
  split; [exact H|]; split; [exact Hu|].
  exact (uppercase_email_unreachable _ _ _ _
           {| Database.du_id := "u-bob"; Database.du_email := "Bob@Example.com";
              Database.du_password_hash := ""; Database.du_name := "Bob";
              Database.du_role := "CLIENT"; Database.du_isActive := true;
              Database.du_clientId := None; Database.du_employeeId := None |} H Hu).
Defined.

(** ** Passwords *)

Lemma alnum_not_special (c : ascii) : is_alnum c = true -> special_char c = false.
Proof. destruct c as [[] [] [] [] [] [] [] []]; first [discriminate | reflexivity]. Qed.

(** X9: the space, the backtick and the tilde are not special characters for
    [validatePasswordStrength]: a password made of letters, digits and those
    three characters is never valid, and its errors include the
    special-character one, whatever its length. *)
Theorem password_needs_listed_special (password : string) :
  forallb (fun c => is_alnum c || Ascii.eqb c " " || Ascii.eqb c "`"
                    || Ascii.eqb c "~") (chars password) = true ->
  fst (validatePasswordStrength password) = false
  /\ In "Password must contain at least one special character"
        (snd (validatePasswordStrength password)).
Proof.
  intros H.
  assert (Hs : existsb special_char (chars password) = false).
  { apply not_true_iff_false; intros Hex.
    apply existsb_exists in Hex as [c [Hc Hsp]].
    pose proof (proj1 (forallb_forall _ _) H c Hc) as Hc'.
    destruct (is_alnum c) eqn:Ha.
    - rewrite alnum_not_special in Hsp by exact Ha; discriminate.
    - clear -Hc' Hsp Ha.
      destruct c as [[] [] [] [] [] [] [] []]; try discriminate. }
  unfold validatePasswordStrength; rewrite Hs; cbn [negb].
  match goal with
  | |- context [app ?l _] => remember l as errs eqn:Herrs
  end.
  cbn [fst snd]; rewrite length_app; cbn [List.length].
  split; [apply Nat.eqb_neq; lia|].
  apply in_or_app; right; left; reflexivity.
Qed.

Lemma password_needs_listed_special_witness :
  forallb (fun c => is_alnum c || Ascii.eqb c " " || Ascii.eqb c "`"
                    || Ascii.eqb c "~") (chars "Correct Horse 42~") = true
  /\ (fst (validatePasswordStrength "Correct Horse 42~") = false
      /\ In "Password must contain at least one special character"
            (snd (validatePasswordStrength "Correct Horse 42~"))).
Proof.
  assert (H : forallb (fun c => is_alnum c || Ascii.eqb c " " || Ascii.eqb c "`"
                                || Ascii.eqb c "~") (chars "Correct Horse 42~") = true)
    by reflexivity.
  split; [exact H|]; exact (password_needs_listed_special _ H).
Defined.

End RequestsFacts.

Module CpfLoginFacts.
Import Js Jwt Types JwtUtil Database DatabaseOps AuthService CpfLogin AuthFacts.
Local Open Scope string_scope.
Local Open Scope Z_scope.

Lemma generateAccessToken_default (secrets : AuthSecrets) (now : Z) (ui : UserInfo) :
  JWT_SECRET secrets <> "" -> JWT_ACCESS_EXPIRY secrets = None ->
  generateAccessToken secrets now ui
  = inr (Signed {| sub := id ui; email := Some (u_email ui);
                   name := Some (u_name ui); role := Some (u_role ui);
                   clientId := truthy (u_clientId ui);
                   employeeId := truthy (u_employeeId ui);
                   type_ := None; iat := now / 1000;
                   exp := Some (now / 1000 + 900) |} (JWT_SECRET secrets)).
Proof.
  intros Hs Ha; unfold generateAccessToken, sign; rewrite Ha; cbn [or_default].
  replace (String.eqb (JWT_SECRET secrets) "") with false
    by (symmetry; apply String.eqb_neq; exact Hs).
  unfold timespan; replace (ms "15m") with (Some (900000, 0%nat)) by reflexivity.
  reflexivity.
Qed.

Lemma generateRefreshToken_default (secrets : AuthSecrets) (now : Z) (uid : string) :
  JWT_SECRET secrets <> "" -> JWT_REFRESH_EXPIRY secrets = None ->
  generateRefreshToken secrets now uid
  = inr (Signed {| sub := uid; email := None; name := None; role := None;
                   clientId := None; employeeId := None;
                   type_ := Some "refresh"; iat := now / 1000;
                   exp := Some (now / 1000 + 604800) |} (JWT_SECRET secrets),
         Some (now + 7 * DAY_MS)).
Proof.
  intros Hs Hr; unfold generateRefreshToken, sign; rewrite Hr; cbn [or_default].
  replace (String.eqb (JWT_SECRET secrets) "") with false
    by (symmetry; apply String.eqb_neq; exact Hs).
  unfold timespan; replace (ms "7d") with (Some (604800000, 0%nat)) by reflexivity.
  replace (parseInt "7d") with (Some 7) by reflexivity.
  replace (ends_with (chars "7d") "d"%char) with true by reflexivity.
  reflexivity.
Qed.

Lemma verify_fresh (p : Payload) (secret : string) (now e : Z) :
  secret <> "" -> exp p = Some e -> now / 1000 < e ->
  verify (Signed p secret) secret now = inr p.
Proof.
  intros Hs He Hlt; cbn [verify].
  replace (String.eqb secret "") with false by (symmetry; apply String.eqb_neq; exact Hs).
  rewrite String.eqb_refl, He; cbn [orb negb].
  replace (now / 1000 >=? e) with false by (symmetry; rewrite Z.geb_leb; apply Z.leb_gt; lia).
  reflexivity.
Qed.

(** X10: [loginWithCpf] asks for no password: when the digits of [cpf] are a
    client's [cpfCnpj] and an active user belongs to that client, it issues
    tokens (with a non-empty secret and the default lifetimes) without any
    hashing work. It adds exactly one refresh-token row, for that user,
    expiring seven days later. The response names the user and the client,
    the refresh token verifies back to the user id, and the access token
    carries the user id. *)
Theorem cpf_login_issues_tokens (cpfCnpj : string -> string) (secrets : AuthSecrets)
  (now : Z) (cpf : string) (s : St) (c : string) (u : DbUser) :
  JWT_SECRET secrets <> "" ->
  JWT_ACCESS_EXPIRY secrets = None ->
  JWT_REFRESH_EXPIRY secrets = None ->
  findClientByCpf cpfCnpj (db s) cpf = Some c ->
  findUserByClientId (db s) c = Some u ->
  exists resp,
    loginWithCpf cpfCnpj secrets now cpf s
    = (inr resp,
       {| db := with_refresh_tokens (db s)
                  (app (refresh_tokens (db s))
                       [{| rt_token := refreshToken resp; rt_userId := du_id u;
                           rt_expiresAt := now + 7 * DAY_MS |}]);
          trace := trace s |})
    /\ id (user resp) = du_id u
    /\ u_clientId (user resp) = Some c
    /\ verifyRefreshToken secrets now (refreshToken resp) = inr (du_id u)
    /\ (exists p, verifyAccessToken secrets now (accessToken resp) = inr p
                  /\ sub p = du_id u).
Proof.
  intros Hs Ha Hr Hc Hu.
  unfold loginWithCpf, bind, query, lift, save, ret.
  rewrite Hc, Hu.
  rewrite generateAccessToken_default by assumption.
  rewrite generateRefreshToken_default by assumption.
  cbn [saveRefreshToken fst snd].
  eexists; split; [f_equal; try reflexivity|].
  cbn [id user u_clientId refreshToken accessToken].
  split; [reflexivity|]; split; [reflexivity|]; split.
  - unfold verifyRefreshToken.
    rewrite (verify_fresh _ _ now (now / 1000 + 604800)) by (reflexivity || assumption || lia).
    reflexivity.
  - unfold verifyAccessToken.
    rewrite (verify_fresh _ _ now (now / 1000 + 900)) by (reflexivity || assumption || lia).
    eexists; split; reflexivity.
Qed.

Lemma cpf_login_issues_tokens_witness :
  let cpfCnpj := fun c => if String.eqb c "c-alice" then "52998224725" else "" in
  let s := {| db := Fixtures.db0; trace := [] |} in
  JWT_SECRET Fixtures.secrets0 <> ""
  /\ JWT_ACCESS_EXPIRY Fixtures.secrets0 = None
  /\ JWT_REFRESH_EXPIRY Fixtures.secrets0 = None
  /\ findClientByCpf cpfCnpj (db s) "529.982.247-25" = Some "c-alice"
  /\ findUserByClientId (db s) "c-alice" = Some Fixtures.alice
  /\ exists resp,
       loginWithCpf cpfCnpj Fixtures.secrets0 Fixtures.login_time "529.982.247-25" s
       = (inr resp,
          {| db := with_refresh_tokens (db s)
                     (app (refresh_tokens (db s))
                          [{| rt_token := refreshToken resp;
                              rt_userId := du_id Fixtures.alice;
                              rt_expiresAt := Fixtures.login_time + 7 * DAY_MS |}]);
             trace := trace s |})
       /\ id (user resp) = du_id Fixtures.alice
       /\ u_clientId (user resp) = Some "c-alice"
       /\ verifyRefreshToken Fixtures.secrets0 Fixtures.login_time (refreshToken resp)
          = inr (du_id Fixtures.alice)
       /\ (exists p, verifyAccessToken Fixtures.secrets0 Fixtures.login_time
                       (accessToken resp) = inr p
                     /\ sub p = du_id Fixtures.alice).
Proof.
  cbv zeta.
  assert (H1 : JWT_SECRET Fixtures.secrets0 <> "") by discriminate.
  assert (H2 : JWT_ACCESS_EXPIRY Fixtures.secrets0 = None) by reflexivity.
  assert (H3 : JWT_REFRESH_EXPIRY Fixtures.secrets0 = None) by reflexivity.
  assert (H4 : findClientByCpf
                 (fun c => if String.eqb c "c-alice" then "52998224725" else "")
                 (db {| db := Fixtures.db0; trace := [] |}) "529.982.247-25"
               = Some "c-alice") by (vm_compute; reflexivity).
  assert (H5 : findUserByClientId (db {| db := Fixtures.db0; trace := [] |}) "c-alice"
               = Some Fixtures.alice) by (vm_compute; reflexivity).
  split; [exact H1|]; split; [exact H2|]; split; [exact H3|];
    split; [exact H4|]; split; [exact H5|].
  exact (cpf_login_issues_tokens _ _ _ _ _ _ _ H1 H2 H3 H4 H5).
Defined.

(** X11: [loginWithCpf] depends on the CPF only through its digits, and its
    two failures change nothing: no client with those digits gives
    [CPF_NOT_FOUND], a client without an active user gives [USER_NOT_FOUND],
    and in both cases the database and the hashing trace are left as they
    were. *)
Theorem cpf_login_failures (cpfCnpj : string -> string) (secrets : AuthSecrets)
  (now : Z) (cpf cpf' : string) (s : St) (c : string) :
  (strip_non_digits (chars cpf) = strip_non_digits (chars cpf') ->
   loginWithCpf cpfCnpj secrets now cpf s = loginWithCpf cpfCnpj secrets now cpf' s)
  /\ (findClientByCpf cpfCnpj (db s) cpf = None ->
      loginWithCpf cpfCnpj secrets now cpf s = (inl (AuthError CPF_NOT_FOUND), s))
  /\ (findClientByCpf cpfCnpj (db s) cpf = Some c ->
      findUserByClientId (db s) c = None ->
      loginWithCpf cpfCnpj secrets now cpf s = (inl (AuthError USER_NOT_FOUND), s)).
Proof.
  split; [|split].
  - intros H; unfold loginWithCpf, findClientByCpf; rewrite H; reflexivity.
  - intros H; unfold loginWithCpf, bind, query, throw; rewrite H; reflexivity.
  - intros H1 H2; unfold loginWithCpf, bind, query, throw; rewrite H1, H2; reflexivity.
Qed.

Lemma cpf_login_failures_witness :
  let cpfCnpj := fun c => if String.eqb c "c-alice" then "52998224725" else "" in
  let s := {| db := Fixtures.db0; trace := [] |} in
  let s' := {| db := {| users := []; clients := ["c-alice"]; employees := [];
                        refresh_tokens := [] |}; trace := [] |} in
  (strip_non_digits (chars "529.982.247-25") = strip_non_digits (chars "52998224725")
   /\ loginWithCpf cpfCnpj Fixtures.secrets0 Fixtures.login_time "529.982.247-25" s
      = loginWithCpf cpfCnpj Fixtures.secrets0 Fixtures.login_time "52998224725" s)
  /\ (findClientByCpf cpfCnpj (db s) "111.444.777-35" = None
      /\ loginWithCpf cpfCnpj Fixtures.secrets0 Fixtures.login_time "111.444.777-35" s
         = (inl (AuthError CPF_NOT_FOUND), s))
  /\ (findClientByCpf cpfCnpj (db s') "529.982.247-25" = Some "c-alice"
      /\ findUserByClientId (db s') "c-alice" = None
      /\ loginWithCpf cpfCnpj Fixtures.secrets0 Fixtures.login_time "529.982.247-25" s'
         = (inl (AuthError USER_NOT_FOUND), s')).
Proof.
  cbv zeta.
  split; [|split].
  - assert (H : strip_non_digits (chars "529.982.247-25")
                = strip_non_digits (chars "52998224725")) by reflexivity.
    split; [exact H|].
    exact (proj1 (cpf_login_failures
                    (fun c => if String.eqb c "c-alice" then "52998224725" else "")
                    Fixtures.secrets0 Fixtures.login_time _ _ _ "c-alice") H).
  - assert (H : findClientByCpf
                  (fun c => if String.eqb c "c-alice" then "52998224725" else "")
                  (db {| db := Fixtures.db0; trace := [] |}) "111.444.777-35" = None)
      by (vm_compute; reflexivity).
    split; [exact H|].
    exact (proj1 (proj2 (cpf_login_failures
                    (fun c => if String.eqb c "c-alice" then "52998224725" else "")
                    Fixtures.secrets0 Fixtures.login_time _ "" _ "c-alice")) H).
  - assert (H1 : findClientByCpf
                   (fun c => if String.eqb c "c-alice" then "52998224725" else "")
                   (db {| db := {| users := []; clients := ["c-alice"]; employees := [];
                                   refresh_tokens := [] |}; trace := [] |})
                   "529.982.247-25" = Some "c-alice") by (vm_compute; reflexivity).
    assert (H2 : findUserByClientId
                   (db {| db := {| users := []; clients := ["c-alice"]; employees := [];
                                   refresh_tokens := [] |}; trace := [] |}) "c-alice"
                 = None) by reflexivity.
    split; [exact H1|]; split; [exact H2|].
    exact (proj2 (proj2 (cpf_login_failures
                    (fun c => if String.eqb c "c-alice" then "52998224725" else "")
                    Fixtures.secrets0 Fixtures.login_time _ "" _ "c-alice")) H1 H2).
Defined.

(** X12: after [revokeAllUserTokens(userId)], a refresh token whose rows all
    belong to that user (as the rows saved at login do) can no longer be
    exchanged: [refreshAccessToken] fails and changes nothing. The rows of
    every other user are kept. *)
Theorem revoke_all_blocks_refresh (secrets : AuthSecrets) (now : Z) (T : Token)
  (uid : string) (s : St) :
  Forall (fun r => rt_token r = T -> rt_userId r = uid) (refresh_tokens (db s)) ->
  (exists e,
     refreshAccessToken secrets now T
       {| db := revokeAllUserTokens (db s) uid; trace := trace s |}
     = (inl e, {| db := revokeAllUserTokens (db s) uid; trace := trace s |}))
  /\ (forall r, In r (refresh_tokens (db s)) -> rt_userId r <> uid ->
      In r (refresh_tokens (revokeAllUserTokens (db s) uid))).
Proof.
  intros Hrows; split.
  - assert (Hnone : findValidRefreshToken (revokeAllUserTokens (db s) uid) T now = None).
    { unfold findValidRefreshToken, revokeAllUserTokens, with_refresh_tokens.
      cbn [refresh_tokens].
      destruct (find _ _) as [r|] eqn:Hf; [|reflexivity].
      apply find_some in Hf as [Hin Hm].
      apply filter_In in Hin as [Hin Hne].
      apply andb_true_iff in Hm as [Ht _]; apply bool_decide_eq_true in Ht.
      rewrite List.Forall_forall in Hrows.
      rewrite (Hrows r Hin Ht), String.eqb_refl in Hne; discriminate. }
    unfold refreshAccessToken, bind, lift, query, throw.
    destruct (verifyRefreshToken secrets now T) as [e|uid'].
    + exists e; reflexivity.
    + cbn [db]; rewrite Hnone; eexists; reflexivity.
  - intros r Hin Hne; unfold revokeAllUserTokens, with_refresh_tokens; cbn [refresh_tokens].
    apply filter_In; split; [exact Hin|].
    apply negb_true_iff, String.eqb_neq; exact Hne.
Qed.

Lemma revoke_all_blocks_refresh_witness :
  Forall (fun r => rt_token r = Fixtures.T0 -> rt_userId r = "u-alice")
         (refresh_tokens (db Fixtures.st0))
  /\ ((exists e,
         refreshAccessToken Fixtures.secrets0 (Fixtures.login_time + 1000) Fixtures.T0
           {| db := revokeAllUserTokens (db Fixtures.st0) "u-alice";
              trace := trace Fixtures.st0 |}
         = (inl e, {| db := revokeAllUserTokens (db Fixtures.st0) "u-alice";
                      trace := trace Fixtures.st0 |}))
      /\ (forall r, In r (refresh_tokens (db Fixtures.st0)) -> rt_userId r <> "u-alice" ->
          In r (refresh_tokens (revokeAllUserTokens (db Fixtures.st0) "u-alice")))).
Proof.
  assert (H : Forall (fun r => rt_token r = Fixtures.T0 -> rt_userId r = "u-alice")
                     (refresh_tokens (db Fixtures.st0)))
    by (repeat constructor).
  split; [exact H|]; exact (revoke_all_blocks_refresh _ _ _ _ _ H).
Defined.

End CpfLoginFacts.

Module AuthorizerFacts.
Import Js Jwt Types JwtUtil Requests Authorizer CpfLoginFacts RequestsFacts.
Local Open Scope string_scope.
Local Open Scope Z_scope.

Lemma split_on_not_nil (sep : ascii) (s : list ascii) : split_on sep s <> [].
Proof.
  destruct s as [|c r]; cbn; [discriminate|].
  destruct (Ascii.eqb c sep); [discriminate|].
  destruct (split_on sep r); discriminate.
Qed.

Lemma split_on_free (sep : ascii) (y : list ascii) :
  no_sep sep y = true -> split_on sep y = [y].
Proof.
  induction y as [|c y IH]; cbn; [reflexivity|].
  intros H; apply andb_true_iff in H as [Hc Hy]; apply negb_true_iff in Hc.
  rewrite Hc, (IH Hy); reflexivity.
Qed.

Lemma split_on_app (sep : ascii) (x y : list ascii) :
  no_sep sep y = true -> split_on sep (app x (sep :: y)) = app (split_on sep x) [y].
Proof.
  intros Hy; induction x as [|c x IH]; cbn.
  - rewrite Ascii.eqb_refl, (split_on_free sep y Hy); reflexivity.
  - destruct (Ascii.eqb c sep); [rewrite IH; reflexivity|].
    rewrite IH.
    destruct (split_on sep x) as [|w ws] eqn:Hx; [exfalso; exact (split_on_not_nil sep x Hx)|].
    reflexivity.
Qed.

Lemma join_split (sep : ascii) (s : list ascii) : join_on sep (split_on sep s) = s.
Proof.
  induction s as [|c r IH]; cbn; [reflexivity|].
  destruct (Ascii.eqb c sep) eqn:Hc.
  - apply Ascii.eqb_eq in Hc; subst c.
    destruct (split_on sep r) as [|w ws] eqn:Hr; [exfalso; exact (split_on_not_nil sep r Hr)|].
    change (join_on sep ([] :: w :: ws)) with (sep :: join_on sep (w :: ws)).
    rewrite IH; reflexivity.
  - destruct (split_on sep r) as [|w [|w' ws]] eqn:Hr;
      [exfalso; exact (split_on_not_nil sep r Hr)| |]; cbn in IH |- *; rewrite IH; reflexivity.
Qed.

Lemma split_on_length (sep : ascii) (s : list ascii) :
  List.length (split_on sep s) = S (count_occ ascii_dec s sep).
Proof.
  induction s as [|c r IH]; cbn; [reflexivity|].
  destruct (Ascii.eqb c sep) eqn:Hc.
  - apply Ascii.eqb_eq in Hc; subst c.
    destruct (ascii_dec sep sep) as [_|]; [|contradiction]; cbn; rewrite IH; reflexivity.
  - destruct (ascii_dec c sep) as [Heq|_]; [subst c; rewrite Ascii.eqb_refl in Hc; discriminate|].
    destruct (split_on sep r) as [|w ws] eqn:Hr; [exfalso; exact (split_on_not_nil sep r Hr)|].
    exact IH.
Qed.

(** X13: [extractToken] reads a raw token without spaces as it is, reads
    ["<scheme> <token>"] as the token when the scheme is [Bearer] in any
    case and as no token for any other scheme, and gives no token for a
    header with two spaces or more. *)
Theorem extractToken_forms (scheme t h : list ascii) :
  no_sep " "%char t = true ->
  (t <> [] -> extractToken (Some (string_of_list_ascii t)) = Some (string_of_list_ascii t))
  /\ (no_sep " "%char scheme = true ->
      extractToken (Some (string_of_list_ascii (app scheme (" "%char :: t))))
      = if String.eqb (string_of_list_ascii (to_lower scheme)) "bearer"
        then Some (string_of_list_ascii t) else None)
  /\ ((2 <= count_occ ascii_dec h " "%char)%nat ->
      extractToken (Some (string_of_list_ascii h)) = None).
Proof.
  intros Ht; split; [|split].
  - intros Hne; unfold extractToken; rewrite chars_string, (split_on_free _ _ Ht).
    destruct t as [|c t']; [contradiction|]; reflexivity.
  - intros Hs; unfold extractToken; rewrite chars_string, (split_on_app _ _ _ Ht),
      (split_on_free _ _ Hs).
    destruct scheme; reflexivity.
  - intros H2; unfold extractToken; rewrite chars_string.
    destruct (String.eqb (string_of_list_ascii h) ""); [reflexivity|].
    pose proof (split_on_length " "%char h) as Hl.
    destruct (split_on " "%char h) as [|p0 [|p1 [|p2 ps]]]; cbn in Hl; try lia; reflexivity.
Qed.

Lemma extractToken_forms_witness :
  no_sep " "%char (chars "abc.def.ghi") = true
  /\ ((chars "abc.def.ghi" <> [] ->
       extractToken (Some (string_of_list_ascii (chars "abc.def.ghi")))
       = Some (string_of_list_ascii (chars "abc.def.ghi")))
      /\ (no_sep " "%char (chars "BeArEr") = true ->
          extractToken (Some (string_of_list_ascii
                                (app (chars "BeArEr") (" "%char :: chars "abc.def.ghi"))))
          = if String.eqb (string_of_list_ascii (to_lower (chars "BeArEr"))) "bearer"
            then Some (string_of_list_ascii (chars "abc.def.ghi")) else None)
      /\ ((2 <= count_occ ascii_dec (chars "Bearer a b") " "%char)%nat ->
          extractToken (Some (string_of_list_ascii (chars "Bearer a b"))) = None)).
Proof.
  assert (H : no_sep " "%char (chars "abc.def.ghi") = true) by reflexivity.
  split; [exact H|]; exact (extractToken_forms _ _ _ H).
Defined.

(** X14: the authorizer's resource is the method ARN with its last two
    ["/"]-separated segments replaced by ["*"]: for a route [.../GET/users]
    it covers every method and path of the stage, but for a deeper path
    such as [.../POST/auth/login] it covers [.../POST/*] only. *)
Theorem wildcard_resource_last_two (p a b : list ascii) :
  no_sep "/"%char a = true -> no_sep "/"%char b = true -> a <> [] -> b <> [] ->
  wildcard_resource (string_of_list_ascii (app p ("/"%char :: app a ("/"%char :: b))))
  = string_of_list_ascii (app p ["/"; "*"]%char).
Proof.
  intros Ha Hb Ha' Hb'.
  unfold wildcard_resource; rewrite chars_string.
  replace (app p ("/"%char :: app a ("/"%char :: b)))
    with (app (app p ("/"%char :: a)) ("/"%char :: b))
    by (rewrite <- app_assoc; reflexivity).
  rewrite (split_on_app _ _ _ Hb), (split_on_app _ _ _ Ha).
  rewrite !rev_app_distr; cbn [rev app].
  destruct (rev (split_on "/"%char p)) as [|w ws] eqn:Hr.
  - exfalso; apply (f_equal (@rev _)) in Hr; rewrite rev_involutive in Hr.
    exact (split_on_not_nil _ _ Hr).
  - rewrite <- Hr, rev_involutive, join_split.
    destruct a; [contradiction|]; destruct b; [contradiction|]; reflexivity.
Qed.

Lemma wildcard_resource_last_two_witness :
  no_sep "/"%char (chars "auth") = true /\ no_sep "/"%char (chars "login") = true
  /\ chars "auth" <> [] /\ chars "login" <> []
  /\ wildcard_resource
       (string_of_list_ascii
          (app (chars "arn:aws:execute-api:us-east-1:123456789012:abc123/prod/POST")
               ("/"%char :: app (chars "auth") ("/"%char :: chars "login"))))
     = string_of_list_ascii
         (app (chars "arn:aws:execute-api:us-east-1:123456789012:abc123/prod/POST")
              ["/"; "*"]%char).
Proof.
  assert (H1 : no_sep "/"%char (chars "auth") = true) by reflexivity.
  assert (H2 : no_sep "/"%char (chars "login") = true) by reflexivity.
  assert (H3 : chars "auth" <> []) by discriminate.
  assert (H4 : chars "login" <> []) by discriminate.
  split; [exact H1|]; split; [exact H2|]; split; [exact H3|]; split; [exact H4|].
  exact (wildcard_resource_last_two _ _ _ H1 H2 H3 H4).
Defined.

(** X15: the authorizer allows only a token it verified: an [Allow] policy
    comes from a non-empty token of the event that decodes to a payload
    signed with the (non-empty) current secret and not expired, and names
    that payload's [sub] as principal, with its claims as context. Every
    other outcome is a [Deny] for principal ["unauthorized"] without context.
    Either way the resource is the wildcard resource of the method ARN. *)
Theorem authorizer_allow_sound (decode : string -> Token) (secrets : AuthSecrets)
  (now : Z) (ev : AuthorizerEvent) :
  resource (authorizerHandler decode secrets now ev) = wildcard_resource (methodArn ev)
  /\ (effect (authorizerHandler decode secrets now ev) = Allow ->
      exists t p, eventToken ev = Some t /\ t <> ""
        /\ decode t = Signed p (JWT_SECRET secrets) /\ JWT_SECRET secrets <> ""
        /\ (forall e, exp p = Some e -> now / 1000 < e)
        /\ principalId (authorizerHandler decode secrets now ev) = sub p
        /\ context (authorizerHandler decode secrets now ev) = Some (claims_of p))
  /\ (effect (authorizerHandler decode secrets now ev) = Deny ->
      principalId (authorizerHandler decode secrets now ev) = "unauthorized"
      /\ context (authorizerHandler decode secrets now ev) = None).
Proof.
  unfold authorizerHandler.
  destruct (eventToken ev) as [t|] eqn:Htok;
    [|split; [reflexivity|]; split; [discriminate|split; reflexivity]].
  destruct (String.eqb t "") eqn:Ht;
    [split; [reflexivity|]; split; [discriminate|split; reflexivity]|].
  unfold verifyAccessToken.
  destruct (decode t) as [p key|m] eqn:Hd;
    [|split; [reflexivity|]; split; [discriminate|split; reflexivity]].
  cbn [verify].
  destruct (String.eqb (JWT_SECRET secrets) "" || negb (String.eqb key (JWT_SECRET secrets)))
    eqn:Hk; [split; [reflexivity|]; split; [discriminate|split; reflexivity]|].
  apply orb_false_iff in Hk as [Hs Hk]; apply negb_false_iff, String.eqb_eq in Hk; subst key.
  destruct (exp p) as [e|] eqn:He.
  - destruct (now / 1000 >=? e) eqn:Hn;
      [split; [reflexivity|]; split; [discriminate|split; reflexivity]|].
    split; [reflexivity|]; split; [|discriminate].
    intros _; exists t, p.
    split; [first [exact Htok|reflexivity]|]; split; [apply String.eqb_neq; exact Ht|].
    split; [first [exact Hd|reflexivity]|]; split; [apply String.eqb_neq; exact Hs|].
    split; [|split; reflexivity].
    intros e' He'; rewrite He in He'; injection He' as <-; rewrite Z.geb_leb in Hn; apply Z.leb_gt in Hn; lia.
  - split; [reflexivity|]; split; [|discriminate].
    intros _; exists t, p.
    split; [first [exact Htok|reflexivity]|]; split; [apply String.eqb_neq; exact Ht|].
    split; [first [exact Hd|reflexivity]|]; split; [apply String.eqb_neq; exact Hs|].
    split; [|split; reflexivity].
    intros e' He'; rewrite He in He'; discriminate.
Qed.

Lemma authorizer_allow_sound_witness :
  let ev := {| ev_type := "TOKEN"; authorizationToken := Some "Bearer a.b.c";
               ev_headers := None;
               methodArn := "arn:aws:execute-api:us-east-1:1:api/prod/GET/users" |} in
  let decode := fun _ : string => Fixtures.T0 in
  effect (authorizerHandler decode Fixtures.secrets0 Fixtures.login_time ev) = Allow
  /\ exists t p, eventToken ev = Some t /\ t <> ""
       /\ decode t = Signed p (JWT_SECRET Fixtures.secrets0)
       /\ JWT_SECRET Fixtures.secrets0 <> ""
       /\ (forall e, exp p = Some e -> Fixtures.login_time / 1000 < e)
       /\ principalId (authorizerHandler decode Fixtures.secrets0 Fixtures.login_time ev)
          = sub p
       /\ context (authorizerHandler decode Fixtures.secrets0 Fixtures.login_time ev)
          = Some (claims_of p).
Proof.
  cbv zeta.
  assert (H : effect (authorizerHandler (fun _ : string => Fixtures.T0) Fixtures.secrets0
                        Fixtures.login_time
                        {| ev_type := "TOKEN"; authorizationToken := Some "Bearer a.b.c";
                           ev_headers := None;
                           methodArn := "arn:aws:execute-api:us-east-1:1:api/prod/GET/users" |})
              = Allow) by (vm_compute; reflexivity).
  split; [exact H|].
  exact (proj1 (proj2 (authorizer_allow_sound _ _ _ _)) H).
Defined.

(** X16: the authorizer and [validateTokenHandler] never look at the token's
    [type]: the refresh token issued by [generateRefreshToken] (default
    seven-day lifetime), presented as the bearer token, is granted an
    [Allow] policy for its user, and is reported valid, at any time before
    it expires. *)
Theorem refresh_token_passes_authorizer (decode : string -> Token)
  (secrets : AuthSecrets) (now later : Z) (uid : string) (T : Token)
  (expiresAt : option Z) (ev : AuthorizerEvent) (t : string) :
  generateRefreshToken secrets now uid = inr (T, expiresAt) ->
  JWT_REFRESH_EXPIRY secrets = None ->
  eventToken ev = Some t -> t <> "" -> decode t = T ->
  later / 1000 < now / 1000 + 604800 ->
  authorizerHandler decode secrets later ev
  = generatePolicy uid Allow (wildcard_resource (methodArn ev))
      (Some {| c_sub := uid; c_email := None; c_name := None; c_role := None;
               c_clientId := None; c_employeeId := None |})
  /\ valid (validateTokenHandler decode secrets later t) = true.
Proof.
  intros Hgen Hr Htok Ht Hd Hlater.
  assert (Hs : JWT_SECRET secrets <> "").
  { intros Hs; unfold generateRefreshToken, sign in Hgen; rewrite Hs in Hgen; discriminate. }
  rewrite generateRefreshToken_default in Hgen by assumption.
  injection Hgen as HT _; subst T.
  unfold authorizerHandler, validateTokenHandler, verifyAccessToken.
  rewrite Htok, Hd.
  replace (String.eqb t "") with false by (symmetry; apply String.eqb_neq; exact Ht).
  rewrite (verify_fresh _ _ later (now / 1000 + 604800)) by (reflexivity || assumption).
  split; reflexivity.
Qed.

Lemma refresh_token_passes_authorizer_witness :
  let T := Signed {| sub := "u-alice"; email := None; name := None; role := None;
                     clientId := None; employeeId := None; type_ := Some "refresh";
                     iat := Fixtures.login_time / 1000;
                     exp := Some (Fixtures.login_time / 1000 + 604800) |} "s3cr3t" in
  let ev := {| ev_type := "REQUEST"; authorizationToken := None;
               ev_headers := Some [("authorization", "Bearer r.e.f")];
               methodArn := "arn:aws:execute-api:us-east-1:1:api/prod/GET/orders" |} in
  generateRefreshToken Fixtures.secrets0 Fixtures.login_time "u-alice"
  = inr (T, Some (Fixtures.login_time + 7 * DAY_MS))
  /\ eventToken ev = Some "r.e.f"
  /\ authorizerHandler (fun _ => T) Fixtures.secrets0 (Fixtures.login_time + 3600000) ev
     = generatePolicy "u-alice" Allow (wildcard_resource (methodArn ev))
         (Some {| c_sub := "u-alice"; c_email := None; c_name := None; c_role := None;
                  c_clientId := None; c_employeeId := None |})
  /\ valid (validateTokenHandler (fun _ => T) Fixtures.secrets0
              (Fixtures.login_time + 3600000) "r.e.f") = true.
Proof.
  cbv zeta.
  match goal with
  | |- ?g = inr (?T, ?x) /\ ?e = _ /\ _ =>
      assert (Hg : g = inr (T, x)) by (vm_compute; reflexivity);
      assert (He : e = Some "r.e.f") by (vm_compute; reflexivity)
  end.
  split; [exact Hg|]; split; [exact He|].
  refine (refresh_token_passes_authorizer _ _ _ _ _ _ _ _ _ Hg eq_refl He _ eq_refl _);
    [discriminate|vm_compute; reflexivity].
Defined.

End AuthorizerFacts.
